(** * MPFaceMesh: detection bookkeeping and landmark drawing

    A shallow embedding of [src/tolvera/mp/face_mesh.py].  The class is
    an adapter around an external landmark model: [detect] reshapes the
    model's answer into two fixed-shape single-precision arrays and copies
    them into the shared state store, [draw] walks the store and issues
    circle and line calls on a pixel surface.

    Python objects are mutable, methods may raise, and two collaborators
    (the landmark model and the pixel surface) live outside the class.
    The embedding therefore runs every method in a small monad that
    threads the instance, may stop with an exception while keeping the
    mutations done so far, and records the calls made on collaborators. *)

From Stdlib Require Import ZArith List Lia Bool.
From Stdlib Require Import Floats.SpecFloat.
From stdpp Require Import base tactics option list.

Local Open Scope Z_scope.

(** * The program *)

(** ** Numbers *)

(** [ti.i32]: a 32-bit two's complement integer, carried as a [Z]. *)
Definition i32_min : Z := - 2 ^ 31.
Definition i32_max : Z := 2 ^ 31 - 1.
Definition i32 (n : Z) : Z := (n + 2 ^ 31) mod 2 ^ 32 - 2 ^ 31.
Definition in_i32 (n : Z) : Prop := i32_min <= n <= i32_max.

(** Python floats are IEEE binary64, the numpy arrays and the Taichi
    fields are binary32.  Both are [spec_float] values used at the
    matching precision. *)
Definition float := spec_float.
Definition f32 := spec_float.

Definition is_finite (x : spec_float) : bool :=
  match x with
  | S754_zero _ | S754_finite _ _ _ => true
  | S754_infinity _ | S754_nan => false
  end.

Definition float_sub : float -> float -> float := SFsub 53 1024.
Definition float_mul : float -> float -> float := SFmul 53 1024.

(** Exceptions that the modelled code can raise. *)
Inductive exn := IndexError | OverflowError | AttributeError.

(** [float(n)] for a Python int: nearest double, [OverflowError] when
    the int is too large for one. *)
Definition float_of_int (n : Z) : exn + float :=
  match binary_normalize 53 1024 n 0 false with
  | S754_infinity _ => inl OverflowError
  | x => inr x
  end.

(** The literal [1] of [1-lm.x] once converted to a float. *)
Definition float_one : float := binary_normalize 53 1024 1 0 false.

(** Storing a double into a [np.float32] cell: round to nearest even. *)
Definition f32_of_float (x : float) : f32 :=
  match x with
  | S754_finite s m e => binary_round 24 128 s m e
  | _ => x
  end.

(** Reading a float32 cell back as a Python float: widening is exact. *)
Definition float_of_f32 (x : f32) : float :=
  match x with
  | S754_finite s m e => binary_round 53 1024 s m e
  | _ => x
  end.

(** [ti.cast(v, ti.i32)] on an f32: truncation toward zero.  The
    conversion is undefined outside the i32 range and on NaN; the value
    chosen here is the one x86 delivers, the most negative integer. *)
Definition i32_of_f32 (x : f32) : Z :=
  match x with
  | S754_zero _ => 0
  | S754_finite s m e =>
      let t := if 0 <=? e then Z.shiftl (Zpos m) e else Z.shiftr (Zpos m) (- e) in
      let v := if s then - t else t in
      if (i32_min <=? v) && (v <=? i32_max) then v else i32_min
  | _ => i32_min
  end.

(** ** Data *)

(** [ti.math.vec3] and [ti.math.vec2], and one cell of a float32 array
    whose last axis has length 3 or 2. *)
Record vec3 := Vec3 { v3_x : f32; v3_y : f32; v3_z : f32 }.
Record vec2 := Vec2 { v2_x : f32; v2_y : f32 }.

Definition f32_zero : f32 := S754_zero false.
Definition vec3_zero : vec3 := Vec3 f32_zero f32_zero f32_zero.
Definition vec2_zero : vec2 := Vec2 f32_zero f32_zero.

(** A dict of arrays with the keys ['pxnorm'] and ['px'], indexed
    [face][landmark].  [face_mesh_np] is one; the shared store
    [ctx.s.face_mesh] holds the same two attributes per cell. *)
Record nddict := NdDict {
  pxnorm : list (list vec3);
  px : list (list vec2)
}.

(** [np.zeros((n, m, _), np.float32)] for both keys. *)
Definition nd_zeros (n m : nat) : nddict :=
  NdDict (replicate n (replicate m vec3_zero))
         (replicate n (replicate m vec2_zero)).

(** [arr[i, j] = v]; numpy raises [IndexError] out of range. *)
Definition nd_set {A} (arr : list (list A)) (i j : nat) (v : A)
  : option (list (list A)) :=
  match arr !! i with
  | Some row =>
      if decide (j < length row)%nat then Some (<[i := <[j := v]> row]> arr)
      else None
  | None => None
  end.

(** The answer of the external model: one landmark, one face, and
    [results.multi_face_landmarks], which is [None] or a list. *)
Record Landmark := { lm_x : float; lm_y : float; lm_z : float }.
Definition Face := list Landmark.
Definition Detection := option (list Face).

(** A video frame: rows of pixels of channel bytes.  The class only
    passes it on. *)
Definition Frame := list (list (list Z)).

(** [FaceMeshConnection], a Taichi struct of two i32. *)
Record FaceMeshConnection := Conn { c_a : Z; c_b : Z }.

(** The vendor's topology module [face_mesh_connections]: named groups
    of landmark index pairs.  Its contents are constants of another
    file, so every definition below takes them as a value. *)
Record Topology := {
  FACEMESH_LIPS : list (Z * Z);
  FACEMESH_LEFT_EYE : list (Z * Z);
  FACEMESH_LEFT_IRIS : list (Z * Z);
  FACEMESH_LEFT_EYEBROW : list (Z * Z);
  FACEMESH_RIGHT_EYE : list (Z * Z);
  FACEMESH_RIGHT_EYEBROW : list (Z * Z);
  FACEMESH_RIGHT_IRIS : list (Z * Z);
  FACEMESH_FACE_OVAL : list (Z * Z);
  FACEMESH_NOSE : list (Z * Z);
  FACEMESH_CONTOURS : list (Z * Z)
}.

(** The ten connection fields of an instance. *)
Record Connections := {
  lips_conns : list FaceMeshConnection;
  left_eye_conns : list FaceMeshConnection;
  left_iris_conns : list FaceMeshConnection;
  left_eyebrow_conns : list FaceMeshConnection;
  right_eye_conns : list FaceMeshConnection;
  right_eyebrow_conns : list FaceMeshConnection;
  right_iris_conns : list FaceMeshConnection;
  face_oval_conns : list FaceMeshConnection;
  nose_conns : list FaceMeshConnection;
  contours_conns : list FaceMeshConnection
}.

(** [**kwargs] of the constructor; an absent key is [None].  [max_faces]
    and [face_detect_rate] are counts: numpy refuses a negative dimension,
    and no instance exists then. *)
Record Kwargs := {
  static_mode : option bool;
  max_faces : option nat;
  refine_landmarks : option bool;
  detection_con : option float;
  tracking_con : option float;
  face_detect_rate : option nat
}.

(** [self.config]. *)
Record Config := {
  static_image_mode : bool;
  max_num_faces : nat;
  cfg_refine_landmarks : bool;
  min_detection_confidence : float;
  min_tracking_confidence : float
}.

(** Modelled from the spec: the periodic-invocation helper [Updater] of
    [osc/update.py], "call the wrapped function at most once every N
    invocations".  It counts invocations and lets one through when the
    count reaches the threshold. *)
Record Updater := { count_threshold : nat; counter : nat }.

(** The pixel surface is an object of the context.  Its [circle] and
    [line] methods are recorded as calls; the instance only needs to
    know whether its attribute [px] is bound to one. *)
Variant Pixels := ctx_px.

(** The instance.  [face_mesh] is the [process] method of the external
    model object: a function of the frame.  [results] and [self_px] are
    attributes that exist only once assigned. *)
Record MPFaceMesh := {
  ctx_x : Z;
  ctx_y : Z;
  ctx_s_face_mesh : nddict;
  n_conns : nat;
  config : Config;
  face_mesh : Frame -> Detection;
  conns : Connections;
  face_mesh_np : nddict;
  detected : Z;
  updater : Updater;
  results : option Detection;
  self_px : option Pixels
}.

Definition n_points : nat := 478.

Definition with_store (st : nddict) (s : MPFaceMesh) : MPFaceMesh :=
  {| ctx_x := ctx_x s; ctx_y := ctx_y s; ctx_s_face_mesh := st;
     n_conns := n_conns s; config := config s; face_mesh := face_mesh s;
     conns := conns s; face_mesh_np := face_mesh_np s;
     detected := detected s; updater := updater s; results := results s;
     self_px := self_px s |}.

Definition with_np (np : nddict) (s : MPFaceMesh) : MPFaceMesh :=
  {| ctx_x := ctx_x s; ctx_y := ctx_y s; ctx_s_face_mesh := ctx_s_face_mesh s;
     n_conns := n_conns s; config := config s; face_mesh := face_mesh s;
     conns := conns s; face_mesh_np := np;
     detected := detected s; updater := updater s; results := results s;
     self_px := self_px s |}.

Definition with_detected (d : Z) (s : MPFaceMesh) : MPFaceMesh :=
  {| ctx_x := ctx_x s; ctx_y := ctx_y s; ctx_s_face_mesh := ctx_s_face_mesh s;
     n_conns := n_conns s; config := config s; face_mesh := face_mesh s;
     conns := conns s; face_mesh_np := face_mesh_np s;
     detected := d; updater := updater s; results := results s;
     self_px := self_px s |}.

Definition with_updater (u : Updater) (s : MPFaceMesh) : MPFaceMesh :=
  {| ctx_x := ctx_x s; ctx_y := ctx_y s; ctx_s_face_mesh := ctx_s_face_mesh s;
     n_conns := n_conns s; config := config s; face_mesh := face_mesh s;
     conns := conns s; face_mesh_np := face_mesh_np s;
     detected := detected s; updater := u; results := results s;
     self_px := self_px s |}.

Definition with_results (r : Detection) (s : MPFaceMesh) : MPFaceMesh :=
  {| ctx_x := ctx_x s; ctx_y := ctx_y s; ctx_s_face_mesh := ctx_s_face_mesh s;
     n_conns := n_conns s; config := config s; face_mesh := face_mesh s;
     conns := conns s; face_mesh_np := face_mesh_np s;
     detected := detected s; updater := updater s; results := Some r;
     self_px := self_px s |}.

Definition with_px (p : Pixels) (s : MPFaceMesh) : MPFaceMesh :=
  {| ctx_x := ctx_x s; ctx_y := ctx_y s; ctx_s_face_mesh := ctx_s_face_mesh s;
     n_conns := n_conns s; config := config s; face_mesh := face_mesh s;
     conns := conns s; face_mesh_np := face_mesh_np s;
     detected := detected s; updater := updater s; results := results s;
     self_px := Some p |}.

(** ** The method monad *)

(** Calls on the collaborators, in the order they are made. *)
Inductive call :=
| Process (frame : Frame)
| Circle (cx cy r : Z) (rgba : list Z)
| Line (x0 y0 x1 y1 : Z) (rgba : list Z).

Inductive outcome (A : Type) :=
| Returned (a : A)
| Raised (e : exn).
Arguments Returned {A} a.
Arguments Raised {A} e.

Record run (A : Type) := Run {
  r_out : outcome A;
  r_self : MPFaceMesh;
  r_calls : list call
}.
Arguments Run {A} r_out r_self r_calls.
Arguments r_out {A} r.
Arguments r_self {A} r.
Arguments r_calls {A} r.

Definition M (A : Type) : Type := MPFaceMesh -> run A.

#[global] Instance M_ret : MRet M := fun A a s => Run (Returned a) s [].

#[global] Instance M_bind : MBind M := fun A B f m s =>
  match m s with
  | Run (Returned a) s' cs =>
      let r := f a s' in Run (r_out r) (r_self r) (cs ++ r_calls r)
  | Run (Raised e) s' cs => Run (Raised e) s' cs
  end.

Definition raise {A} (e : exn) : M A := fun s => Run (Raised e) s [].
Definition gets {A} (f : MPFaceMesh -> A) : M A := fun s => Run (Returned (f s)) s [].
Definition modify (f : MPFaceMesh -> MPFaceMesh) : M unit :=
  fun s => Run (Returned tt) (f s) [].
Definition emit (c : call) : M unit := fun s => Run (Returned tt) s [c].

Definition lift_exn {A} (r : exn + A) : M A :=
  match r with inl e => raise e | inr a => mret a end.

(** [for i, x in enumerate(l)], counting from [i]. *)
Fixpoint for_each {A} (body : nat -> A -> M unit) (i : nat) (l : list A) : M unit :=
  match l with
  | [] => mret tt
  | x :: l' => body i x ;; for_each body (S i) l'
  end.

Definition for_enumerate {A} (l : list A) (body : nat -> A -> M unit) : M unit :=
  for_each body 0%nat l.

(** [for i, j in ti.ndrange(n, m)]: row-major over [0..n) x [0..m). *)
Definition for_ndrange (n m : nat) (body : nat -> nat -> M unit) : M unit :=
  for_each (fun _ i => for_each (fun _ j => body i j) 0%nat (seq 0 m)) 0%nat (seq 0 n).

(** ** Construction *)

(** [FaceMeshConnection.field(shape=(n))]: [n] zeroed structs. *)
Definition connection_field (n : nat) : list FaceMeshConnection :=
  replicate n (Conn 0 0).

(** [for i in range(fld.shape[0])]: [fld[i]] becomes the connection
    built from the unpacked pair [TABLE[i]].  The field has the table's
    length, so [TABLE[i]] is always there. *)
Definition fill_by_index (table : list (Z * Z)) (fld : list FaceMeshConnection)
  : list FaceMeshConnection :=
  foldl (fun fld i =>
           match table !! i with
           | Some (a, b) => <[i := Conn (i32 a) (i32 b)]> fld
           | None => fld
           end)
        fld (seq 0 (length fld)).

(** [for i, j in enumerate(TABLE): fld[i] = FaceMeshConnection(j[0], j[1])]. *)
Fixpoint fill_by_enumerate (i : nat) (table : list (Z * Z))
  (fld : list FaceMeshConnection) : list FaceMeshConnection :=
  match table with
  | [] => fld
  | j :: table' => fill_by_enumerate (S i) table' (<[i := Conn (i32 (fst j)) (i32 (snd j))]> fld)
  end.

Definition setup_connections (t : Topology) : Connections :=
  {| lips_conns := fill_by_index (FACEMESH_LIPS t) (connection_field (length (FACEMESH_LIPS t)));
     left_eye_conns := fill_by_index (FACEMESH_LEFT_EYE t) (connection_field (length (FACEMESH_LEFT_EYE t)));
     left_iris_conns := fill_by_index (FACEMESH_LEFT_IRIS t) (connection_field (length (FACEMESH_LEFT_IRIS t)));
     left_eyebrow_conns := fill_by_index (FACEMESH_LEFT_EYEBROW t) (connection_field (length (FACEMESH_LEFT_EYEBROW t)));
     right_eye_conns := fill_by_index (FACEMESH_RIGHT_EYE t) (connection_field (length (FACEMESH_RIGHT_EYE t)));
     right_eyebrow_conns := fill_by_index (FACEMESH_RIGHT_EYEBROW t) (connection_field (length (FACEMESH_RIGHT_EYEBROW t)));
     right_iris_conns := fill_by_index (FACEMESH_RIGHT_IRIS t) (connection_field (length (FACEMESH_RIGHT_IRIS t)));
     face_oval_conns := fill_by_index (FACEMESH_FACE_OVAL t) (connection_field (length (FACEMESH_FACE_OVAL t)));
     nose_conns := fill_by_index (FACEMESH_NOSE t) (connection_field (length (FACEMESH_NOSE t)));
     contours_conns := fill_by_enumerate 0 (FACEMESH_CONTOURS t) (connection_field (length (FACEMESH_CONTOURS t))) |}.

(** The float literal [.5]. *)
Definition float_half : float := binary_normalize 53 1024 1 (-1) false.

(** [__init__].  [topo] is the vendor's topology module, [FaceMesh] the
    vendor's model constructor, [x] and [y] the context's dimensions and
    [state] the store that the context allocates for the declared shape
    [(max_num_faces, n_points)]; its initial contents are the context's
    business.  The attribute [px] is not assigned. *)
Definition __init__ (topo : Topology) (FaceMesh : Config -> Frame -> Detection)
  (x y : Z) (state : nddict) (kwargs : Kwargs) : MPFaceMesh :=
  let cfg := {| static_image_mode := default false (static_mode kwargs);
                max_num_faces := default 1%nat (max_faces kwargs);
                cfg_refine_landmarks := default false (refine_landmarks kwargs);
                min_detection_confidence := default float_half (detection_con kwargs);
                min_tracking_confidence := default float_half (tracking_con kwargs) |} in
  {| ctx_x := x;
     ctx_y := y;
     n_conns := length (FACEMESH_CONTOURS topo);
     config := cfg;
     face_mesh := FaceMesh cfg;
     conns := setup_connections topo;
     face_mesh_np := nd_zeros (max_num_faces cfg) n_points;
     ctx_s_face_mesh := state;
     detected := 0;
     updater := {| count_threshold := default 10%nat (face_detect_rate kwargs);
                   counter := 0 |};
     results := None;
     self_px := None |}.

(** ** Detection *)

(** Modelled from the spec: [State.fill] of the shared store, "shared
    state is zeroed": every cell of both attributes takes the value. *)
Definition nd_fill (v : f32) (st : nddict) : nddict :=
  NdDict (map (map (fun _ => Vec3 v v v)) (pxnorm st))
         (map (map (fun _ => Vec2 v v)) (px st)).

(** Modelled from the spec: [State.set_from_nddict], the store's "bulk
    array assignment": the store takes the contents of the arrays. *)
Definition set_from_nddict (np : nddict) (st : nddict) : nddict := np.

(** [self.face_mesh_np['pxnorm'][i, j] = v] *)
Definition np_assign_pxnorm (i j : nat) (v : vec3) : M unit := fun s =>
  match nd_set (pxnorm (face_mesh_np s)) i j v with
  | Some a => Run (Returned tt) (with_np (NdDict a (px (face_mesh_np s))) s) []
  | None => Run (Raised IndexError) s []
  end.

(** [self.face_mesh_np['px'][i, j] = v] *)
Definition np_assign_px (i j : nat) (v : vec2) : M unit := fun s =>
  match nd_set (px (face_mesh_np s)) i j v with
  | Some a => Run (Returned tt) (with_np (NdDict (pxnorm (face_mesh_np s)) a) s) []
  | None => Run (Raised IndexError) s []
  end.

(** [np.array([1-lm.x, 1-lm.y, 1-lm.z])] as it lands in a float32 cell. *)
Definition pxnorm_of (lm : Landmark) : vec3 :=
  Vec3 (f32_of_float (float_sub float_one (lm_x lm)))
       (f32_of_float (float_sub float_one (lm_y lm)))
       (f32_of_float (float_sub float_one (lm_z lm))).

(** [np.array([w*(1-lm.x), h*(1-lm.y)])] as it lands in a float32 cell,
    for [w] and [h] already converted to floats. *)
Definition px_of (w h : float) (lm : Landmark) : vec2 :=
  Vec2 (f32_of_float (float_mul w (float_sub float_one (lm_x lm))))
       (f32_of_float (float_mul h (float_sub float_one (lm_y lm)))).

(** The body of the inner loop of [detect]. *)
Definition detect_landmark (i j : nat) (lm : Landmark) : M unit :=
  let pxnorm := pxnorm_of lm in
  x ← gets ctx_x;
  w ← lift_exn (float_of_int x);
  y ← gets ctx_y;
  h ← lift_exn (float_of_int y);
  let px := px_of w h lm in
  np_assign_pxnorm i j pxnorm;;
  np_assign_px i j px.

Definition detect (frame : option Frame) : M unit :=
  match frame with
  | None => mret tt
  | Some frame =>
      process ← gets face_mesh;
      emit (Process frame);;
      modify (with_results (process frame));;
      match process frame with
      | None | Some [] =>
          modify (fun s => with_store (nd_fill f32_zero (ctx_s_face_mesh s)) s);;
          modify (with_detected (i32 (-1)))
      | Some faces =>
          for_enumerate faces (fun i face =>
            for_enumerate face (fun j lm => detect_landmark i j lm));;
          modify (fun s => with_store (set_from_nddict (face_mesh_np s) (ctx_s_face_mesh s)) s);;
          modify (with_detected (i32 (Z.of_nat (length faces))))
      end
  end.

(** ** Drawing *)

(** [draw] is a Taichi kernel, and its helpers are Taichi functions
    inlined in it.  Taichi compiles a kernel when it is called, and the
    compilation resolves the attributes that the body and the inlined
    functions name: [self.px] is looked up before any of the body runs,
    whatever the detected-count.  With [px] unbound the call ends there
    (Taichi reports the [AttributeError] inside its own compilation
    error; the model keeps the [AttributeError]).  The body then runs as
    it is written: the guard on the detected-count, the loops row-major,
    a circle or a line through [self.px] at each step. *)

(** What a Taichi kernel reads outside a field's bounds is undefined
    (bounds are only checked in debug mode): the read may return what
    lies there, or end the process.  A [Runtime] describes the runs in
    which every such read returns, and fixes what is returned, so that
    [draw] is a function.  A statement on calls that follow a read
    outside the bounds is a statement on those runs only. *)
Record Runtime := {
  oob_conn : Z -> FaceMeshConnection;
  oob_px : Z -> Z -> vec2
}.

(** [self.contours_conns[conn]] *)
Definition read_conn (rt : Runtime) (fld : list FaceMeshConnection) (i : Z)
  : FaceMeshConnection :=
  if i <? 0 then oob_conn rt i
  else default (oob_conn rt i) (fld !! Z.to_nat i).

(** [self.ctx.s.face_mesh[face, lm].px] *)
Definition read_px (rt : Runtime) (st : nddict) (face lm : Z) : vec2 :=
  if (face <? 0) || (lm <? 0) then oob_px rt face lm
  else default (oob_px rt face lm)
         (px st !! Z.to_nat face ≫= fun row => row !! Z.to_nat lm).

(** [self.px]: an [AttributeError] unless the attribute is bound. *)
Definition get_px : M Pixels := fun s =>
  match self_px s with
  | Some p => Run (Returned p) s []
  | None => Run (Raised AttributeError) s []
  end.

Definition draw_lm (rt : Runtime) (face lm r : Z) (rgba : list Z) : M unit :=
  st ← gets ctx_s_face_mesh;
  let px := read_px rt st face lm in
  let cx := i32_of_f32 (v2_x px) in
  let cy := i32_of_f32 (v2_y px) in
  get_px;;
  emit (Circle cx cy r rgba).

Definition draw_conn (rt : Runtime) (face conn : Z) (rgba : list Z) : M unit :=
  cs ← gets conns;
  let c := read_conn rt (contours_conns cs) conn in
  st ← gets ctx_s_face_mesh;
  let a := read_px rt st face (c_a c) in
  let b := read_px rt st face (c_b c) in
  let '(ax, ay) := (i32_of_f32 (v2_x a), i32_of_f32 (v2_y a)) in
  let '(bx, by') := (i32_of_f32 (v2_x b), i32_of_f32 (v2_y b)) in
  get_px;;
  emit (Line ax ay bx by' rgba).

Definition draw_face_lms (rt : Runtime) (r : Z) (rgba : list Z) : M unit :=
  d ← gets detected;
  for_ndrange (Z.to_nat d) n_points (fun i lm =>
    draw_lm rt (Z.of_nat i) (Z.of_nat lm) r rgba).

Definition draw_face_conns (rt : Runtime) (rgba : list Z) : M unit :=
  d ← gets detected;
  for_ndrange (Z.to_nat d) n_points (fun i lm =>
    draw_conn rt (Z.of_nat i) (Z.of_nat lm) rgba).

Definition draw (rt : Runtime) : M unit :=
  get_px;;
  d ← gets detected;
  if 0 <? d then
    draw_face_lms rt 5 [1; 1; 1; 1];;
    draw_face_conns rt [1; 1; 1; 1]
  else mret tt.

(** ** Scheduling *)

(** Modelled from the spec: calling the [Updater], which lets the
    wrapped function run "at most once every N invocations". *)
Definition Updater_call (f : option Frame -> M unit) (frame : option Frame) : M unit :=
  u ← gets updater;
  let c := S (counter u) in
  modify (with_updater {| count_threshold := count_threshold u; counter := c |});;
  if decide (count_threshold u <= c)%nat then
    f frame;;
    modify (with_updater {| count_threshold := count_threshold u; counter := 0 |})
  else mret tt.

(** [__call__] *)
Definition __call__ (frame : option Frame) : M unit :=
  Updater_call detect frame.

(** * Vocabulary of the statements *)

(** ** Reading the arrays, and the loops of [detect] in closed form *)

(** The cell [arr[i, j]], when it exists. *)
Definition cell {A} (arr : list (list A)) (i j : nat) : option A :=
  arr !! i ≫= fun row => row !! j.

(** Both arrays have [n] rows of [m] cells. *)
Definition nd_shape (n m : nat) (d : nddict) : Prop :=
  (length (pxnorm d) = n /\ Forall (fun row => length row = m) (pxnorm d)) /\
  (length (px d) = n /\ Forall (fun row => length row = m) (px d)).

(** The index pairs visited by the two nested [enumerate] loops, with
    the landmark met at each, in the order of the visit. *)
Fixpoint landmark_cmds (i j : nat) (face : Face) : list (nat * nat * Landmark) :=
  match face with
  | [] => []
  | lm :: face' => (i, j, lm) :: landmark_cmds i (S j) face'
  end.

Fixpoint face_cmds (i : nat) (faces : list Face) : list (nat * nat * Landmark) :=
  match faces with
  | [] => []
  | face :: faces' => landmark_cmds i 0 face ++ face_cmds (S i) faces'
  end.

(** One pass of the inner loop body on the arrays alone. *)
Definition write_landmark (x y : Z) (c : nat * nat * Landmark) (np : nddict)
  : nddict * outcome unit :=
  let '(i, j, lm) := c in
  match float_of_int x with
  | inl e => (np, Raised e)
  | inr w =>
      match float_of_int y with
      | inl e => (np, Raised e)
      | inr h =>
          match nd_set (pxnorm np) i j (pxnorm_of lm) with
          | None => (np, Raised IndexError)
          | Some a =>
              match nd_set (px np) i j (px_of w h lm) with
              | None => (NdDict a (px np), Raised IndexError)
              | Some b => (NdDict a b, Returned tt)
              end
          end
      end
  end.

Fixpoint write_all (x y : Z) (cs : list (nat * nat * Landmark)) (np : nddict)
  : nddict * outcome unit :=
  match cs with
  | [] => (np, Returned tt)
  | c :: cs' =>
      match write_landmark x y c np with
      | (np', Returned _) => write_all x y cs' np'
      | r => r
      end
  end.

(** [detect] on a frame, with the loops replaced by [write_all]. *)
Definition detect_run (frame : Frame) (s : MPFaceMesh) : run unit :=
  let res := face_mesh s frame in
  let s1 := with_results res s in
  match res with
  | None | Some [] =>
      Run (Returned tt)
          (with_detected (i32 (-1))
             (with_store (nd_fill f32_zero (ctx_s_face_mesh s)) s1))
          [Process frame]
  | Some faces =>
      match write_all (ctx_x s) (ctx_y s) (face_cmds 0 faces) (face_mesh_np s) with
      | (np', Returned _) =>
          Run (Returned tt)
              (with_detected (i32 (Z.of_nat (length faces)))
                 (with_store np' (with_np np' s1)))
              [Process frame]
      | (np', Raised e) => Run (Raised e) (with_np np' s1) [Process frame]
      end
  end.

(** ** Counting calls, and the states an instance can be in *)

Definition is_circle (c : call) : bool :=
  match c with Circle _ _ _ _ => true | _ => false end.
Definition is_line (c : call) : bool :=
  match c with Line _ _ _ _ _ => true | _ => false end.
Definition is_process (c : call) : bool :=
  match c with Process _ => true | _ => false end.

Definition count (p : call -> bool) (cs : list call) : nat :=
  length (List.filter p cs).

(** The calls of a full [ndrange] whose body makes the call [c i j]. *)
Definition grid_calls (n m : nat) (c : nat -> nat -> call) : list call :=
  concat (map (fun i => concat (map (fun j => [c i j]) (seq 0 m))) (seq 0 n)).

(** The circle that [draw_lm] puts on the surface, and the line that
    [draw_conn] puts there. *)
Definition circle_of (rt : Runtime) (s : MPFaceMesh) (r : Z) (rgba : list Z)
  (i lm : nat) : call :=
  let px := read_px rt (ctx_s_face_mesh s) (Z.of_nat i) (Z.of_nat lm) in
  Circle (i32_of_f32 (v2_x px)) (i32_of_f32 (v2_y px)) r rgba.

Definition line_of (rt : Runtime) (s : MPFaceMesh) (rgba : list Z)
  (i conn : nat) : call :=
  let c := read_conn rt (contours_conns (conns s)) (Z.of_nat conn) in
  let a := read_px rt (ctx_s_face_mesh s) (Z.of_nat i) (c_a c) in
  let b := read_px rt (ctx_s_face_mesh s) (Z.of_nat i) (c_b c) in
  Line (i32_of_f32 (v2_x a)) (i32_of_f32 (v2_y a))
       (i32_of_f32 (v2_x b)) (i32_of_f32 (v2_y b)) rgba.

(** States reached from [s0] through the methods of the class alone. *)
Inductive reaches (s0 : MPFaceMesh) : MPFaceMesh -> Prop :=
| reaches_here : reaches s0 s0
| reaches_detect s frame :
    reaches s0 s -> reaches s0 (r_self (detect frame s))
| reaches_draw s rt :
    reaches s0 s -> reaches s0 (r_self (draw rt s))
| reaches_call s frame :
    reaches s0 s -> reaches s0 (r_self (__call__ frame s)).

(** States reached from some fresh instance. *)
Definition reachable (s : MPFaceMesh) : Prop :=
  exists topo FaceMesh x y state kwargs,
    reaches (__init__ topo FaceMesh x y state kwargs) s.

(** What no method assigns: the attributes fixed by the constructor,
    and the attribute [px]. *)
Definition same_wiring (s s' : MPFaceMesh) : Prop :=
  conns s' = conns s /\ self_px s' = self_px s /\
  ctx_x s' = ctx_x s /\ ctx_y s' = ctx_y s /\
  config s' = config s /\ face_mesh s' = face_mesh s /\
  n_conns s' = n_conns s.

(** The vendor's tables as connection structs, entry by entry. *)
Definition conn_of_pair (p : Z * Z) : FaceMeshConnection := Conn (fst p) (snd p).

Definition vendor_conns (t : Topology) : Connections :=
  {| lips_conns := map conn_of_pair (FACEMESH_LIPS t);
     left_eye_conns := map conn_of_pair (FACEMESH_LEFT_EYE t);
     left_iris_conns := map conn_of_pair (FACEMESH_LEFT_IRIS t);
     left_eyebrow_conns := map conn_of_pair (FACEMESH_LEFT_EYEBROW t);
     right_eye_conns := map conn_of_pair (FACEMESH_RIGHT_EYE t);
     right_eyebrow_conns := map conn_of_pair (FACEMESH_RIGHT_EYEBROW t);
     right_iris_conns := map conn_of_pair (FACEMESH_RIGHT_IRIS t);
     face_oval_conns := map conn_of_pair (FACEMESH_FACE_OVAL t);
     nose_conns := map conn_of_pair (FACEMESH_NOSE t);
     contours_conns := map conn_of_pair (FACEMESH_CONTOURS t) |}.

(** Landmark indices fit an i32. *)
Definition pairs_in_i32 (l : list (Z * Z)) : Prop :=
  Forall (fun p => in_i32 (fst p) /\ in_i32 (snd p)) l.

Definition topology_in_i32 (t : Topology) : Prop :=
  pairs_in_i32 (FACEMESH_LIPS t) /\ pairs_in_i32 (FACEMESH_LEFT_EYE t) /\
  pairs_in_i32 (FACEMESH_LEFT_IRIS t) /\ pairs_in_i32 (FACEMESH_LEFT_EYEBROW t) /\
  pairs_in_i32 (FACEMESH_RIGHT_EYE t) /\ pairs_in_i32 (FACEMESH_RIGHT_EYEBROW t) /\
  pairs_in_i32 (FACEMESH_RIGHT_IRIS t) /\ pairs_in_i32 (FACEMESH_FACE_OVAL t) /\
  pairs_in_i32 (FACEMESH_NOSE t) /\ pairs_in_i32 (FACEMESH_CONTOURS t).

(** ** Floats in range *)

(** Zero, or a finite float whose exponent is at most the canonical one
    of its format and whose magnitude is below [2 ^ B]. *)
Definition representable (prec emax B : Z) (x : spec_float) : Prop :=
  match x with
  | S754_zero _ => True
  | S754_finite _ m e =>
      e <= fexp prec emax (Zpos (digits2_pos m) + e) /\
      Zpos (digits2_pos m) + e <= B
  | _ => False
  end.

(** A genuine finite double below [2 ^ B] in magnitude. *)
Definition in_range (B : Z) (x : float) : bool :=
  match x with
  | S754_zero _ => true
  | S754_finite _ m e => valid_binary 53 1024 x && (Zpos (digits2_pos m) + e <=? B)
  | _ => false
  end.

(** A landmark whose three coordinates are finite and below [2 ^ 64]. *)
Definition landmark_in_range (lm : Landmark) : bool :=
  in_range 64 (lm_x lm) && in_range 64 (lm_y lm) && in_range 64 (lm_z lm).

Definition vec3_finite (v : vec3) : bool :=
  is_finite (v3_x v) && is_finite (v3_y v) && is_finite (v3_z v).
Definition vec2_finite (v : vec2) : bool :=
  is_finite (v2_x v) && is_finite (v2_y v).

(** Zero, or a positive finite float with a non-positive exponent whose
    value [m * 2 ^ e] is at most the integer [W]. *)
Definition below (W : Z) (x : spec_float) : Prop :=
  match x with
  | S754_zero _ => True
  | S754_finite s m e => s = false /\ e <= 0 /\ Zpos m <= W * 2 ^ (- e)
  | _ => False
  end.

(** A normalized coordinate inside the image: [0 <= x <= 1]. *)
Definition in_unit (x : float) : bool :=
  match x with
  | S754_zero _ => true
  | S754_finite s m e => negb s && (e <=? 0) && (Zpos m <=? 2 ^ (- e))
  | _ => false
  end.

(** Whether one of the sticky bits of a shifted mantissa is set. *)
Definition sticky (mrs : shr_record) : bool := shr_r mrs || shr_s mrs.

(** [mrs'] is [mrs] shifted right by [n] bits: the mantissa is divided
    by [2 ^ n], and a sticky bit is set only if one was set before or a
    non-zero bit was shifted out. *)
Definition shifted (n : Z) (mrs mrs' : shr_record) : Prop :=
  0 <= shr_m mrs ->
  shr_m mrs' = shr_m mrs / 2 ^ n /\
  (sticky mrs' = true -> ~ (2 ^ n | shr_m mrs) \/ sticky mrs = true).

(** * Sample inputs *)

Definition fl (m e : Z) : float := binary_normalize 53 1024 m e false.

(** A landmark at x = k/4, y = 1/2, z = 0. *)
Definition ex_lm (k : Z) : Landmark :=
  {| lm_x := fl k (-2); lm_y := fl 1 (-1); lm_z := fl 0 0 |}.

(** A stand-in model: as many faces as the frame has rows, each with
    478 landmarks; face [i] has all its landmarks at [ex_lm i]. *)
Definition ex_FaceMesh (cfg : Config) (frame : Frame) : Detection :=
  match frame with
  | [] => None
  | _ => Some (imap (fun i _ => replicate 478 (ex_lm (Z.of_nat i))) frame)
  end.

Definition ex_topo : Topology :=
  {| FACEMESH_LIPS := [(61, 146); (146, 91)];
     FACEMESH_LEFT_EYE := [(263, 249)];
     FACEMESH_LEFT_IRIS := [(474, 475)];
     FACEMESH_LEFT_EYEBROW := [(276, 283)];
     FACEMESH_RIGHT_EYE := [(33, 7)];
     FACEMESH_RIGHT_EYEBROW := [(46, 53)];
     FACEMESH_RIGHT_IRIS := [(469, 470)];
     FACEMESH_FACE_OVAL := [(10, 338)];
     FACEMESH_NOSE := [(168, 6)];
     FACEMESH_CONTOURS := [(61, 146); (146, 91); (263, 249)] |}.

Definition ex_kwargs : Kwargs :=
  {| static_mode := None; max_faces := Some 2%nat; refine_landmarks := Some true;
     detection_con := None; tracking_con := None; face_detect_rate := None |}.

Definition ex_self : MPFaceMesh :=
  __init__ ex_topo ex_FaceMesh 1920 1080 (nd_zeros 2 478) ex_kwargs.

Definition ex_rt : Runtime :=
  {| oob_conn := fun _ => Conn 0 0; oob_px := fun _ _ => vec2_zero |}.

Definition frame0 : Frame := [].
Definition frame1 : Frame := [[]].
Definition frame2 : Frame := [[]; []].

(** A second stand-in model, chosen by the number of rows of the frame:
    an empty list of faces, one face of 468 landmarks (the vendor's mesh
    without the iris points), one face of 478 landmarks, or one face of
    478 landmarks far off the image, at x = -(2 ^ 127). *)
Definition ex_FaceMesh_odd (cfg : Config) (frame : Frame) : Detection :=
  match frame with
  | [] => Some []
  | [_] => Some [replicate 468 (ex_lm 1)]
  | [_; _] => Some [replicate 478 (ex_lm 2)]
  | _ => Some [replicate 478 {| lm_x := fl (-1) 127; lm_y := fl 1 (-1); lm_z := fl 0 0 |}]
  end.

(** A third stand-in model: one face of 478 landmarks at x = y = 0.1,
    the single-precision 0.1 that the vendor's landmarks carry. *)
Definition ex_FaceMesh_tenth (cfg : Config) (frame : Frame) : Detection :=
  Some [replicate 478 {| lm_x := fl 13421773 (-27); lm_y := fl 13421773 (-27);
                         lm_z := fl 0 0 |}].

Definition ex_kwargs_default : Kwargs :=
  {| static_mode := None; max_faces := None; refine_landmarks := None;
     detection_con := None; tracking_con := None; face_detect_rate := None |}.

Definition ex_odd : MPFaceMesh :=
  __init__ ex_topo ex_FaceMesh_odd 1920 1080 (nd_zeros 1 478) ex_kwargs_default.

Definition ex_tenth : MPFaceMesh :=
  __init__ ex_topo ex_FaceMesh_tenth 1920 1080 (nd_zeros 1 478) ex_kwargs_default.

Definition frame3 : Frame := [[]; []; []].

(** The sample instance after a frame without a face, and after a frame
    with two. *)
Definition ex_none : MPFaceMesh := r_self (detect (Some frame0) ex_self).
Definition ex_two : MPFaceMesh := r_self (detect (Some frame2) ex_self).

(** * Proofs *)

(** ** Running a bind *)

Lemma bind_run {A B} (m : M A) (f : A -> M B) (s : MPFaceMesh) :
  (m ≫= f) s =
  match m s with
  | Run (Returned a) s' cs =>
      Run (r_out (f a s')) (r_self (f a s')) (cs ++ r_calls (f a s'))
  | Run (Raised e) s' cs => Run (Raised e) s' cs
  end.
Proof. reflexivity. Qed.

Lemma with_np_id (s : MPFaceMesh) : with_np (face_mesh_np s) s = s.
Proof. by destruct s. Qed.

Ltac msimpl :=
  unfold mbind, M_bind, mret, M_ret, raise, gets, modify, emit, lift_exn; cbn.

(** ** [detect] against its closed form *)

Lemma detect_landmark_eq (i j : nat) (lm : Landmark) (s : MPFaceMesh) :
  detect_landmark i j lm s =
  Run (write_landmark (ctx_x s) (ctx_y s) (i, j, lm) (face_mesh_np s)).2
      (with_np (write_landmark (ctx_x s) (ctx_y s) (i, j, lm) (face_mesh_np s)).1 s)
      [].
Proof.
  unfold detect_landmark, write_landmark, np_assign_pxnorm, np_assign_px.
  msimpl.
  destruct (float_of_int (ctx_x s)) as [e|w]; cbn; [by rewrite with_np_id|].
  destruct (float_of_int (ctx_y s)) as [e|h]; cbn; [by rewrite with_np_id|].
  destruct (nd_set (pxnorm (face_mesh_np s)) i j (pxnorm_of lm)) as [a|]; cbn;
    [|by rewrite with_np_id].
  destruct (nd_set (px (face_mesh_np s)) i j (px_of w h lm)) as [b|]; cbn; done.
Qed.

Lemma landmark_loop_eq (i : nat) (face : Face) : forall (j : nat) (s : MPFaceMesh),
  for_each (fun j lm => detect_landmark i j lm) j face s =
  Run (write_all (ctx_x s) (ctx_y s) (landmark_cmds i j face) (face_mesh_np s)).2
      (with_np (write_all (ctx_x s) (ctx_y s) (landmark_cmds i j face) (face_mesh_np s)).1 s)
      [].
Proof.
  induction face as [|lm face IH]; intros j s; cbn [for_each landmark_cmds write_all].
  - cbn. by rewrite with_np_id.
  - rewrite bind_run, detect_landmark_eq.
    destruct (write_landmark (ctx_x s) (ctx_y s) (i, j, lm) (face_mesh_np s))
      as [np' [[]|e]] eqn:Hw; cbn [fst snd].
    + rewrite IH. cbn. destruct s; reflexivity.
    + reflexivity.
Qed.

Lemma write_all_app (x y : Z) (cs1 cs2 : list (nat * nat * Landmark)) (np : nddict) :
  write_all x y (cs1 ++ cs2) np =
  match write_all x y cs1 np with
  | (np', Returned _) => write_all x y cs2 np'
  | r => r
  end.
Proof.
  revert np; induction cs1 as [|c cs1 IH]; intros np; cbn [write_all app].
  - reflexivity.
  - destruct (write_landmark x y c np) as [np' [[]|e]]; [apply IH | reflexivity].
Qed.

Lemma face_loop_eq (faces : list Face) : forall (i : nat) (s : MPFaceMesh),
  for_each (fun i face => for_enumerate face (fun j lm => detect_landmark i j lm)) i faces s =
  Run (write_all (ctx_x s) (ctx_y s) (face_cmds i faces) (face_mesh_np s)).2
      (with_np (write_all (ctx_x s) (ctx_y s) (face_cmds i faces) (face_mesh_np s)).1 s)
      [].
Proof.
  induction faces as [|face faces IH]; intros i s; cbn [for_each face_cmds].
  - cbn. by rewrite with_np_id.
  - rewrite bind_run. unfold for_enumerate. rewrite landmark_loop_eq, write_all_app.
    destruct (write_all (ctx_x s) (ctx_y s) (landmark_cmds i 0 face) (face_mesh_np s))
      as [np' [[]|e]]; cbn [fst snd].
    + rewrite IH. cbn. destruct s; reflexivity.
    + reflexivity.
Qed.

Lemma detect_eq (frame : Frame) (s : MPFaceMesh) :
  detect (Some frame) s = detect_run frame s.
Proof.
  unfold detect, detect_run.
  rewrite bind_run; cbn [gets r_out r_self r_calls app].
  rewrite bind_run; cbn [emit r_out r_self r_calls app].
  rewrite bind_run; cbn [modify r_out r_self r_calls app].
  destruct (face_mesh s frame) as [[|face faces]|] eqn:Hres.
  1, 3: msimpl; rewrite ?Hres; reflexivity.
  rewrite bind_run. unfold for_enumerate. rewrite face_loop_eq.
  cbn [with_results ctx_x ctx_y face_mesh_np].
  destruct (write_all (ctx_x s) (ctx_y s) (face_cmds 0 (face :: faces)) (face_mesh_np s))
    as [np' [[]|e]]; cbn [fst snd]; [|reflexivity].
  msimpl. unfold set_from_nddict. destruct s; reflexivity.
Qed.

(** ** A null frame, and a frame without a face *)

(** C7. [detect] with a null frame returns at once: it makes no call on
    the external model and hands the instance back unchanged, so the
    shared store, the numpy arrays and the detected-count are as before. *)
Theorem detect_null_frame (s : MPFaceMesh) :
  detect None s = Run (Returned tt) s [] /\
  count is_process (r_calls (detect None s)) = 0%nat /\
  ctx_s_face_mesh (r_self (detect None s)) = ctx_s_face_mesh s /\
  face_mesh_np (r_self (detect None s)) = face_mesh_np s /\
  detected (r_self (detect None s)) = detected s.
Proof. repeat split. Qed.

Lemma nd_fill_cells (v : f32) (st : nddict) (i j : nat) :
  cell (pxnorm (nd_fill v st)) i j = (fun _ => Vec3 v v v) <$> cell (pxnorm st) i j /\
  cell (px (nd_fill v st)) i j = (fun _ => Vec2 v v) <$> cell (px st) i j.
Proof.
  unfold cell, nd_fill; cbn [pxnorm px]. rewrite !list_lookup_fmap.
  split.
  - destruct (pxnorm st !! i) as [row|]; cbn; [|done]. by rewrite list_lookup_fmap.
  - destruct (px st !! i) as [row|]; cbn; [|done]. by rewrite list_lookup_fmap.
Qed.

Lemma map_const_replicate {A B} (b : B) (l : list A) :
  map (fun _ => b) l = replicate (length l) b.
Proof. induction l as [|a l IH]; cbn; [done | by rewrite IH]. Qed.

Lemma nd_fill_zeros (n m : nat) (st : nddict) :
  nd_shape n m st -> nd_fill f32_zero st = nd_zeros n m.
Proof.
  intros [[Hn3 Hm3] [Hn2 Hm2]]. unfold nd_fill, nd_zeros. f_equal.
  - rewrite <- Hn3. clear Hn3. induction Hm3 as [|row rows Hrow _ IH]; cbn; [done|].
    by rewrite IH, map_const_replicate, Hrow.
  - rewrite <- Hn2. clear Hn2. induction Hm2 as [|row rows Hrow _ IH]; cbn; [done|].
    by rewrite IH, map_const_replicate, Hrow.
Qed.

(** C3. On a non-null frame for which the model reports no face (a
    [None] or an empty list), [detect] returns without raising, sets the
    detected-count to -1, and leaves every cell of the shared store, in
    the normalized and in the pixel-space attribute, at zero; a store of
    [n] faces by 478 landmarks is then the all-zero store of that shape. *)
Theorem detect_no_face (s : MPFaceMesh) (frame : Frame) :
  face_mesh s frame = None \/ face_mesh s frame = Some [] ->
  let r := detect (Some frame) s in
  r_out r = Returned tt /\
  detected (r_self r) = -1 /\
  (forall i j, cell (pxnorm (ctx_s_face_mesh (r_self r))) i j =
               (fun _ => vec3_zero) <$> cell (pxnorm (ctx_s_face_mesh s)) i j) /\
  (forall i j, cell (px (ctx_s_face_mesh (r_self r))) i j =
               (fun _ => vec2_zero) <$> cell (px (ctx_s_face_mesh s)) i j) /\
  (forall n, nd_shape n n_points (ctx_s_face_mesh s) ->
             ctx_s_face_mesh (r_self r) = nd_zeros n n_points).
Proof.
  intros Hres r. subst r. rewrite detect_eq. unfold detect_run.
  destruct Hres as [-> | ->]; cbn [r_out r_self with_detected detected ctx_s_face_mesh with_store];
    (split; [done|]); (split; [done|]);
    (split; [intros i j; apply nd_fill_cells|]);
    (split; [intros i j; apply nd_fill_cells|]);
    intros n Hn; by apply nd_fill_zeros.
Qed.

Lemma detect_no_face_witness :
  (face_mesh ex_self frame0 = None \/ face_mesh ex_self frame0 = Some []) /\
  r_out (detect (Some frame0) ex_self) = Returned tt /\
  detected (r_self (detect (Some frame0) ex_self)) = -1.
Proof.
  split; [left; reflexivity|].
  split; apply (detect_no_face ex_self frame0); left; reflexivity.
Defined.

(** ** Drawing *)

Lemma for_each_emits {A} (body : nat -> A -> M unit) (g : A -> list call)
  (s : MPFaceMesh) (l : list A) : forall i : nat,
  (forall k x, body k x s = Run (Returned tt) s (g x)) ->
  for_each body i l s = Run (Returned tt) s (concat (map g l)).
Proof.
  induction l as [|x l IH]; intros i Hbody; cbn [for_each map concat].
  - reflexivity.
  - rewrite bind_run, Hbody, IH by done. reflexivity.
Qed.

Lemma for_ndrange_emits (n m : nat) (body : nat -> nat -> M unit)
  (c : nat -> nat -> call) (s : MPFaceMesh) :
  (forall i j, body i j s = Run (Returned tt) s [c i j]) ->
  for_ndrange n m body s = Run (Returned tt) s (grid_calls n m c).
Proof.
  intros Hbody. unfold for_ndrange, grid_calls.
  apply (for_each_emits _ (fun i => concat (map (fun j => [c i j]) (seq 0 m)))).
  intros _ i. by apply (for_each_emits _ (fun j => [c i j])).
Qed.

Lemma count_app (p : call -> bool) (cs1 cs2 : list call) :
  count p (cs1 ++ cs2) = (count p cs1 + count p cs2)%nat.
Proof. unfold count. by rewrite List.filter_app, length_app. Qed.

Lemma count_grid (p : call -> bool) (b : bool) (n m : nat) (c : nat -> nat -> call) :
  (forall i j, p (c i j) = b) ->
  count p (grid_calls n m c) = if b then (n * m)%nat else 0%nat.
Proof.
  intros Hp. unfold grid_calls.
  assert (Hrow : forall i k, count p (concat (map (fun j => [c i j]) (seq k m)))
                             = if b then m else 0%nat).
  { intros i. induction m as [|m IH]; intros k; cbn [seq map concat].
    - by destruct b.
    - rewrite count_app, IH. unfold count; cbn. rewrite Hp. by destruct b. }
  generalize 0%nat at 2. induction n as [|n IH]; intros k; cbn [seq map concat].
  - by destruct b.
  - rewrite count_app, Hrow, IH. destruct b; lia.
Qed.

Lemma draw_lm_bound (rt : Runtime) (s : MPFaceMesh) (p : Pixels) (r : Z)
  (rgba : list Z) (i lm : nat) :
  self_px s = Some p ->
  draw_lm rt (Z.of_nat i) (Z.of_nat lm) r rgba s =
  Run (Returned tt) s [circle_of rt s r rgba i lm].
Proof. intros Hpx. unfold draw_lm, get_px, circle_of. msimpl. by rewrite Hpx. Qed.

Lemma draw_conn_bound (rt : Runtime) (s : MPFaceMesh) (p : Pixels)
  (rgba : list Z) (i conn : nat) :
  self_px s = Some p ->
  draw_conn rt (Z.of_nat i) (Z.of_nat conn) rgba s =
  Run (Returned tt) s [line_of rt s rgba i conn].
Proof. intros Hpx. unfold draw_conn, get_px, line_of. msimpl. by rewrite Hpx. Qed.

Lemma draw_lm_unbound (rt : Runtime) (s : MPFaceMesh) (face lm r : Z) (rgba : list Z) :
  self_px s = None ->
  draw_lm rt face lm r rgba s = Run (Raised AttributeError) s [].
Proof. intros Hpx. unfold draw_lm, get_px. msimpl. by rewrite Hpx. Qed.

Lemma draw_conn_unbound (rt : Runtime) (s : MPFaceMesh) (face conn : Z) (rgba : list Z) :
  self_px s = None ->
  draw_conn rt face conn rgba s = Run (Raised AttributeError) s [].
Proof. intros Hpx. unfold draw_conn, get_px. msimpl. by rewrite Hpx. Qed.

(** [draw] with the surface bound: all circles, then all lines. *)
Lemma draw_bound (rt : Runtime) (s : MPFaceMesh) (p : Pixels) :
  self_px s = Some p -> 0 < detected s ->
  draw rt s =
  Run (Returned tt) s
      (grid_calls (Z.to_nat (detected s)) n_points (circle_of rt s 5 [1; 1; 1; 1]) ++
       grid_calls (Z.to_nat (detected s)) n_points (line_of rt s [1; 1; 1; 1])).
Proof.
  intros Hpx Hd. unfold draw. rewrite bind_run.
  unfold get_px; rewrite Hpx; cbn [r_out r_self r_calls app].
  rewrite bind_run; cbn [gets r_out r_self r_calls app].
  apply Z.ltb_lt in Hd as ->.
  rewrite bind_run. unfold draw_face_lms, draw_face_conns.
  rewrite bind_run; cbn [gets r_out r_self r_calls app].
  rewrite (for_ndrange_emits _ _ _ (circle_of rt s 5 [1; 1; 1; 1]))
    by (intros i j; by apply draw_lm_bound with p).
  cbn [r_out r_self r_calls].
  rewrite bind_run; cbn [gets r_out r_self r_calls app].
  rewrite (for_ndrange_emits _ _ _ (line_of rt s [1; 1; 1; 1]))
    by (intros i j; by apply draw_conn_bound with p).
  reflexivity.
Qed.

(** [draw] with the surface bound and nothing detected: the guard
    fails and the body does nothing. *)
Lemma draw_skips (rt : Runtime) (s : MPFaceMesh) (p : Pixels) :
  self_px s = Some p -> detected s <= 0 ->
  draw rt s = Run (Returned tt) s [].
Proof.
  intros Hpx Hd. unfold draw. rewrite bind_run.
  unfold get_px; rewrite Hpx; cbn [r_out r_self r_calls app].
  rewrite bind_run; cbn [gets r_out r_self r_calls app].
  by apply Z.ltb_ge in Hd as ->.
Qed.

(** [draw] without a surface: the kernel does not compile, whatever the
    detected-count. *)
Lemma draw_unbound (rt : Runtime) (s : MPFaceMesh) :
  self_px s = None ->
  draw rt s = Run (Raised AttributeError) s [].
Proof.
  intros Hpx. unfold draw. rewrite bind_run.
  unfold get_px; by rewrite Hpx.
Qed.

Lemma draw_self (rt : Runtime) (s : MPFaceMesh) : r_self (draw rt s) = s.
Proof.
  destruct (self_px s) as [p|] eqn:Hpx; [|by rewrite draw_unbound].
  destruct (Z.le_gt_cases (detected s) 0) as [Hd|Hd].
  - by rewrite (draw_skips rt s p).
  - by rewrite (draw_bound rt s p Hpx Hd).
Qed.

(** C6. With a detected-count of zero or less, the -1 of a frame without
    a face included, [draw] makes no call at all, so no circle and no
    line call, and leaves the instance, the surface with it, as it was.
    The call returns when the attribute [px] is bound; it ends on the
    [AttributeError] when [px] is unbound. *)
Theorem draw_nothing_detected (rt : Runtime) (s : MPFaceMesh) :
  detected s <= 0 ->
  r_calls (draw rt s) = [] /\
  count is_circle (r_calls (draw rt s)) = 0%nat /\
  count is_line (r_calls (draw rt s)) = 0%nat /\
  r_self (draw rt s) = s /\
  (is_Some (self_px s) -> r_out (draw rt s) = Returned tt) /\
  (self_px s = None -> r_out (draw rt s) = Raised AttributeError).
Proof.
  intros Hd. destruct (self_px s) as [p|] eqn:Hpx.
  - rewrite (draw_skips rt s p Hpx Hd). by repeat split.
  - rewrite (draw_unbound rt s Hpx). repeat split; try done.
Qed.

Lemma draw_nothing_detected_witness :
  reachable ex_none /\ detected ex_none <= 0 /\
  r_calls (draw ex_rt ex_none) = [] /\
  r_self (draw ex_rt ex_none) = ex_none /\
  detected (with_px ctx_px ex_none) <= 0 /\
  r_calls (draw ex_rt (with_px ctx_px ex_none)) = [] /\
  r_out (draw ex_rt (with_px ctx_px ex_none)) = Returned tt.
Proof.
  assert (Hr : reachable ex_none).
  { exists ex_topo, ex_FaceMesh, 1920, 1080, (nd_zeros 2 478), ex_kwargs.
    apply reaches_detect, reaches_here. }
  assert (Hd : detected ex_none <= 0) by (vm_compute; discriminate).
  assert (Hd' : detected (with_px ctx_px ex_none) <= 0) by (vm_compute; discriminate).
  assert (Hpx : is_Some (self_px (with_px ctx_px ex_none))) by (by eexists).
  destruct (draw_nothing_detected ex_rt ex_none Hd) as (Hc & _ & _ & Hs & _).
  destruct (draw_nothing_detected ex_rt (with_px ctx_px ex_none) Hd')
    as (Hc' & _ & _ & _ & Ho & _).
  exact (conj Hr (conj Hd (conj Hc (conj Hs (conj Hd' (conj Hc' (Ho Hpx))))))).
Defined.

(** C1. With the surface bound and a detected-count [K > 0], [draw]
    makes [K * 478] circle calls and [K * 478] line calls: the line loop
    runs over [n_points], not over the contours table, so the number of
    lines is [K] times the table's length only for a table of 478. *)
Theorem draw_call_counts (rt : Runtime) (s : MPFaceMesh) (p : Pixels) :
  self_px s = Some p -> 0 < detected s ->
  r_out (draw rt s) = Returned tt /\
  count is_circle (r_calls (draw rt s)) = (Z.to_nat (detected s) * 478)%nat /\
  count is_line (r_calls (draw rt s)) = (Z.to_nat (detected s) * 478)%nat /\
  (length (contours_conns (conns s)) <> 478%nat ->
   count is_line (r_calls (draw rt s)) <>
   (Z.to_nat (detected s) * length (contours_conns (conns s)))%nat).
Proof.
  intros Hpx Hd. rewrite (draw_bound rt s p Hpx Hd); cbn [r_out r_calls].
  assert (Hc : count is_circle
                 (grid_calls (Z.to_nat (detected s)) n_points (circle_of rt s 5 [1; 1; 1; 1]) ++
                  grid_calls (Z.to_nat (detected s)) n_points (line_of rt s [1; 1; 1; 1]))
               = (Z.to_nat (detected s) * 478)%nat).
  { rewrite count_app, (count_grid _ true), (count_grid _ false) by done.
    unfold n_points. lia. }
  assert (Hl : count is_line
                 (grid_calls (Z.to_nat (detected s)) n_points (circle_of rt s 5 [1; 1; 1; 1]) ++
                  grid_calls (Z.to_nat (detected s)) n_points (line_of rt s [1; 1; 1; 1]))
               = (Z.to_nat (detected s) * 478)%nat).
  { rewrite count_app, (count_grid _ false), (count_grid _ true) by done.
    unfold n_points. lia. }
  rewrite Hc, Hl. repeat split. intros Hlen. nia.
Qed.

Lemma draw_call_counts_witness :
  self_px (with_px ctx_px ex_two) = Some ctx_px /\
  0 < detected (with_px ctx_px ex_two) /\
  length (contours_conns (conns (with_px ctx_px ex_two))) = 3%nat /\
  count is_circle (r_calls (draw ex_rt (with_px ctx_px ex_two))) = 956%nat /\
  count is_line (r_calls (draw ex_rt (with_px ctx_px ex_two))) = 956%nat.
Proof.
  assert (Hpx : self_px (with_px ctx_px ex_two) = Some ctx_px)
    by (vm_compute; reflexivity).
  assert (Hd : 0 < detected (with_px ctx_px ex_two)) by (vm_compute; reflexivity).
  assert (Hlen : length (contours_conns (conns (with_px ctx_px ex_two))) = 3%nat)
    by (vm_compute; reflexivity).
  assert (HK : (Z.to_nat (detected (with_px ctx_px ex_two)) * 478 = 956)%nat)
    by (vm_compute; reflexivity).
  destruct (draw_call_counts ex_rt (with_px ctx_px ex_two) ctx_px Hpx Hd)
    as (_ & Hc & Hl & _).
  rewrite HK in Hc, Hl. auto.
Defined.

(** ** What the methods leave alone *)

Lemma same_wiring_refl (s : MPFaceMesh) : same_wiring s s.
Proof. by repeat split. Qed.

Lemma same_wiring_trans (s1 s2 s3 : MPFaceMesh) :
  same_wiring s1 s2 -> same_wiring s2 s3 -> same_wiring s1 s3.
Proof. unfold same_wiring. intros H1 H2. destruct_and!. repeat split; congruence. Qed.

Lemma detect_wiring (frame : option Frame) (s : MPFaceMesh) :
  same_wiring s (r_self (detect frame s)).
Proof.
  destruct frame as [frame|]; [|apply same_wiring_refl].
  rewrite detect_eq. unfold detect_run.
  destruct (face_mesh s frame) as [[|face faces]|]; try by repeat split.
  destruct (write_all _ _ _ _) as [np' [[]|e]]; by repeat split.
Qed.

Lemma call_wiring (frame : option Frame) (s : MPFaceMesh) :
  same_wiring s (r_self (__call__ frame s)).
Proof.
  unfold __call__, Updater_call.
  rewrite bind_run; cbn [gets r_out r_self r_calls app].
  rewrite bind_run; cbn [modify r_out r_self r_calls app].
  case_decide; [|by repeat split].
  rewrite bind_run.
  set (s1 := with_updater _ s).
  pose proof (detect_wiring frame s1) as Hw.
  destruct (detect frame s1) as [[[]|e] s2 cs]; cbn [r_self] in *.
  - msimpl. unfold same_wiring in *. destruct_and!. by repeat split.
  - unfold same_wiring in *. destruct_and!. by repeat split.
Qed.

Lemma reaches_wiring (s0 s : MPFaceMesh) : reaches s0 s -> same_wiring s0 s.
Proof.
  induction 1 as [|s frame _ IH|s rt _ IH|s frame _ IH].
  - apply same_wiring_refl.
  - eapply same_wiring_trans; [exact IH | apply detect_wiring].
  - by rewrite draw_self.
  - eapply same_wiring_trans; [exact IH | apply call_wiring].
Qed.

Lemma reachable_px_unbound (s : MPFaceMesh) : reachable s -> self_px s = None.
Proof.
  intros (topo & FM & x & y & st & kw & Hr).
  apply reaches_wiring in Hr as (_ & -> & _). reflexivity.
Qed.

(** C2. In a state that the methods of the class can reach from a fresh
    instance, the attribute [px] is unbound: no method assigns it.  Every
    circle and every line goes through that attribute, so with a positive
    detected-count [draw] stops on an [AttributeError] before any call is
    made on a surface. *)
Theorem draw_px_unbound (rt : Runtime) (s : MPFaceMesh) :
  reachable s -> 0 < detected s ->
  self_px s = None /\
  (forall face lm r rgba,
      draw_lm rt face lm r rgba s = Run (Raised AttributeError) s []) /\
  (forall face conn rgba,
      draw_conn rt face conn rgba s = Run (Raised AttributeError) s []) /\
  draw rt s = Run (Raised AttributeError) s [].
Proof.
  intros Hr Hd. pose proof (reachable_px_unbound s Hr) as Hpx.
  split; [done|]. split; [intros; by apply draw_lm_unbound|].
  split; [intros; by apply draw_conn_unbound|].
  by apply draw_unbound.
Qed.

Lemma draw_px_unbound_witness :
  reachable ex_two /\ 0 < detected ex_two /\
  draw ex_rt ex_two = Run (Raised AttributeError) ex_two [].
Proof.
  assert (Hr : reachable ex_two).
  { exists ex_topo, ex_FaceMesh, 1920, 1080, (nd_zeros 2 478), ex_kwargs.
    apply reaches_detect, reaches_here. }
  assert (Hd : 0 < detected ex_two) by (vm_compute; reflexivity).
  split; [exact Hr|]. split; [exact Hd|].
  apply (draw_px_unbound ex_rt ex_two Hr Hd).
Defined.

(** ** The connection tables *)

Lemma i32_id (n : Z) : in_i32 n -> i32 n = n.
Proof.
  unfold in_i32, i32, i32_min, i32_max. intros Hn.
  rewrite Z.mod_small; lia.
Qed.

Lemma fill_by_index_prefix (table : list (Z * Z)) (fld : list FaceMeshConnection) (k : nat) :
  length fld = length table -> (k <= length table)%nat ->
  foldl (fun fld i =>
           match table !! i with
           | Some (a, b) => <[i := Conn (i32 a) (i32 b)]> fld
           | None => fld
           end)
        fld (seq 0 k)
  = map (fun p => Conn (i32 (fst p)) (i32 (snd p))) (take k table) ++ drop k fld.
Proof.
  intros Hlen. induction k as [|k IH]; intros Hk.
  - cbn. by rewrite drop_0.
  - rewrite seq_S, foldl_snoc, IH by lia. cbn [Nat.add].
    destruct (lookup_lt_is_Some_2 table k) as [[a b] Hab]; [lia|].
    rewrite Hab, (take_S_r _ _ _ Hab), map_app, <- app_assoc. cbn [map app fst snd].
    destruct (lookup_lt_is_Some_2 fld k) as [c Hc]; [lia|].
    rewrite (drop_S _ _ _ Hc).
    rewrite insert_app_r_alt by (rewrite length_map, length_take; lia).
    rewrite length_map, length_take, Nat.min_l, Nat.sub_diag by lia.
    reflexivity.
Qed.

Lemma fill_by_index_eq (table : list (Z * Z)) :
  fill_by_index table (connection_field (length table))
  = map (fun p => Conn (i32 (fst p)) (i32 (snd p))) table.
Proof.
  unfold fill_by_index, connection_field.
  rewrite fill_by_index_prefix by (rewrite ?length_replicate; lia).
  rewrite length_replicate, take_ge, drop_ge by (rewrite ?length_replicate; lia).
  apply app_nil_r.
Qed.

Lemma fill_by_enumerate_prefix (table : list (Z * Z)) :
  forall (done_ fld : list FaceMeshConnection),
  length fld = length table ->
  fill_by_enumerate (length done_) table (done_ ++ fld)
  = done_ ++ map (fun p => Conn (i32 (fst p)) (i32 (snd p))) table.
Proof.
  induction table as [|p table IH]; intros done_ fld Hlen; cbn [fill_by_enumerate map].
  - destruct fld; [done | discriminate].
  - destruct fld as [|c fld]; [discriminate|].
    rewrite insert_app_r_alt, Nat.sub_diag by lia. cbn [insert list_insert].
    change (done_ ++ ?x :: ?l) with (done_ ++ [x] ++ l).
    rewrite !app_assoc.
    replace (S (length done_)) with (length (done_ ++ [Conn (i32 (fst p)) (i32 (snd p))]))
      by (rewrite length_app; cbn; lia).
    apply IH. by injection Hlen.
Qed.

Lemma fill_by_enumerate_eq (table : list (Z * Z)) :
  fill_by_enumerate 0 table (connection_field (length table))
  = map (fun p => Conn (i32 (fst p)) (i32 (snd p))) table.
Proof.
  apply (fill_by_enumerate_prefix table []). apply length_replicate.
Qed.

Lemma map_conn_in_i32 (table : list (Z * Z)) :
  pairs_in_i32 table ->
  map (fun p => Conn (i32 (fst p)) (i32 (snd p))) table = map conn_of_pair table.
Proof.
  induction 1 as [|p table [Ha Hb] _ IH]; cbn [map]; [done|].
  by rewrite IH, (i32_id _ Ha), (i32_id _ Hb).
Qed.

Lemma setup_connections_eq (t : Topology) :
  topology_in_i32 t -> setup_connections t = vendor_conns t.
Proof.
  intros (H1 & H2 & H3 & H4 & H5 & H6 & H7 & H8 & H9 & H10).
  unfold setup_connections, vendor_conns.
  rewrite !fill_by_index_eq, fill_by_enumerate_eq.
  by rewrite !map_conn_in_i32.
Qed.

(** C8. A fresh instance holds the vendor's ten connection tables entry
    by entry (landmark indices fit an i32), and so does every state that
    [detect], [draw] and [__call__] can lead to from it: none of them
    writes a table. *)
Theorem connections_constant (topo : Topology) (FaceMesh : Config -> Frame -> Detection)
  (x y : Z) (state : nddict) (kwargs : Kwargs) (s : MPFaceMesh) :
  topology_in_i32 topo ->
  reaches (__init__ topo FaceMesh x y state kwargs) s ->
  conns (__init__ topo FaceMesh x y state kwargs) = vendor_conns topo /\
  conns s = vendor_conns topo.
Proof.
  intros Htopo Hr.
  assert (Hinit : conns (__init__ topo FaceMesh x y state kwargs) = vendor_conns topo)
    by (cbn [__init__ conns]; by apply setup_connections_eq).
  split; [done|].
  apply reaches_wiring in Hr as (-> & _). exact Hinit.
Qed.

Lemma connections_constant_witness :
  topology_in_i32 ex_topo /\
  reaches ex_self (r_self (draw ex_rt (r_self (__call__ (Some frame1) ex_two)))) /\
  conns (r_self (draw ex_rt (r_self (__call__ (Some frame1) ex_two)))) = vendor_conns ex_topo.
Proof.
  assert (Ht : topology_in_i32 ex_topo).
  { unfold topology_in_i32, pairs_in_i32, in_i32, i32_min, i32_max; cbn.
    repeat split; repeat constructor; cbn; lia. }
  assert (Hr : reaches ex_self (r_self (draw ex_rt (r_self (__call__ (Some frame1) ex_two))))).
  { apply reaches_draw, reaches_call, reaches_detect, reaches_here. }
  split; [exact Ht|]. split; [exact Hr|].
  apply (connections_constant ex_topo ex_FaceMesh 1920 1080 (nd_zeros 2 478) ex_kwargs _ Ht Hr).
Defined.

(** ** Writing one cell *)

Section nd_set.
Context {A : Type}.
Implicit Types (arr : list (list A)) (v : A).

Lemma nd_set_Some arr i j v arr' :
  nd_set arr i j v = Some arr' ->
  exists row, arr !! i = Some row /\ (j < length row)%nat /\
              arr' = <[i := <[j := v]> row]> arr.
Proof.
  unfold nd_set. destruct (arr !! i) as [row|]; [|done].
  case_decide; [|done]. intros [= <-]. by exists row.
Qed.

Lemma nd_set_cell arr i j v arr' i' j' :
  nd_set arr i j v = Some arr' ->
  cell arr' i' j' = if decide (i' = i /\ j' = j) then Some v else cell arr i' j'.
Proof.
  intros (row & Hrow & Hj & ->)%nd_set_Some. unfold cell.
  destruct (decide (i' = i)) as [->|Hi].
  - rewrite list_lookup_insert_eq by (by eapply lookup_lt_Some). rewrite Hrow. cbn.
    destruct (decide (j' = j)) as [->|Hj'].
    + rewrite list_lookup_insert_eq by done. by rewrite decide_True.
    + rewrite list_lookup_insert_ne by done. rewrite decide_False; [done|]. by intros [_ ?].
  - rewrite list_lookup_insert_ne by done. rewrite decide_False; [done|]. by intros [? _].
Qed.

Lemma nd_set_row arr i j v arr' i' :
  nd_set arr i j v = Some arr' -> i' <> i -> arr' !! i' = arr !! i'.
Proof.
  intros (row & Hrow & Hj & ->)%nd_set_Some Hi. by rewrite list_lookup_insert_ne.
Qed.

Lemma nd_set_id arr i j v :
  cell arr i j = Some v -> nd_set arr i j v = Some arr.
Proof.
  unfold cell, nd_set. destruct (arr !! i) as [row|] eqn:Hrow; [|done]. cbn.
  intros Hj. rewrite decide_True by (by eapply lookup_lt_Some).
  by rewrite (list_insert_id row), (list_insert_id arr).
Qed.

Lemma nd_set_in_range arr i j v n m :
  length arr = n -> Forall (fun row => length row = m) arr ->
  (i < n)%nat -> (j < m)%nat -> is_Some (nd_set arr i j v).
Proof.
  intros Hn Hm Hi Hj. unfold nd_set.
  destruct (lookup_lt_is_Some_2 arr i) as [row Hrow]; [lia|]. rewrite Hrow.
  rewrite Forall_lookup in Hm. rewrite decide_True; [done|].
  by rewrite (Hm _ _ Hrow).
Qed.

Lemma nd_set_keeps_shape arr i j v arr' n m :
  nd_set arr i j v = Some arr' ->
  length arr = n /\ Forall (fun row => length row = m) arr ->
  length arr' = n /\ Forall (fun row => length row = m) arr'.
Proof.
  intros (row & Hrow & Hj & ->)%nd_set_Some [Hn Hm]. split.
  - by rewrite length_insert.
  - apply Forall_insert; [done|]. rewrite length_insert.
    rewrite Forall_lookup in Hm. by apply (Hm _ _ Hrow).
Qed.
End nd_set.

(** ** The loops on the arrays *)

Lemma write_landmark_Returned (x y : Z) (i j : nat) (lm : Landmark) (np np' : nddict) :
  write_landmark x y (i, j, lm) np = (np', Returned tt) ->
  exists w h a b,
    float_of_int x = inr w /\ float_of_int y = inr h /\
    nd_set (pxnorm np) i j (pxnorm_of lm) = Some a /\
    nd_set (px np) i j (px_of w h lm) = Some b /\
    np' = NdDict a b.
Proof.
  unfold write_landmark.
  destruct (float_of_int x) as [e|w]; [done|].
  destruct (float_of_int y) as [e|h]; [done|].
  destruct (nd_set (pxnorm np) i j (pxnorm_of lm)) as [a|] eqn:Ha; [|done].
  destruct (nd_set (px np) i j (px_of w h lm)) as [b|] eqn:Hb; [|done].
  intros [= <-]. by exists w, h, a, b.
Qed.

(** Whatever its outcome, one pass touches no cell but its own. *)
Lemma write_landmark_other (x y : Z) (i j : nat) (lm : Landmark) (np : nddict) (i' j' : nat) :
  (i', j') <> (i, j) ->
  cell (pxnorm (write_landmark x y (i, j, lm) np).1) i' j' = cell (pxnorm np) i' j' /\
  cell (px (write_landmark x y (i, j, lm) np).1) i' j' = cell (px np) i' j'.
Proof.
  intros Hne. unfold write_landmark.
  assert (Hdec : ~ (i' = i /\ j' = j)) by (intros [-> ->]; done).
  destruct (float_of_int x) as [e|w]; [done|].
  destruct (float_of_int y) as [e|h]; [done|].
  destruct (nd_set (pxnorm np) i j (pxnorm_of lm)) as [a|] eqn:Ha; [|done].
  destruct (nd_set (px np) i j (px_of w h lm)) as [b|] eqn:Hb; cbn [fst pxnorm px].
  - rewrite (nd_set_cell _ _ _ _ _ i' j' Ha), (nd_set_cell _ _ _ _ _ i' j' Hb).
    by rewrite !decide_False.
  - rewrite (nd_set_cell _ _ _ _ _ i' j' Ha). by rewrite decide_False.
Qed.

Lemma write_landmark_other_row (x y : Z) (i j : nat) (lm : Landmark) (np : nddict) (i' : nat) :
  i' <> i ->
  pxnorm (write_landmark x y (i, j, lm) np).1 !! i' = pxnorm np !! i' /\
  px (write_landmark x y (i, j, lm) np).1 !! i' = px np !! i'.
Proof.
  intros Hne. unfold write_landmark.
  destruct (float_of_int x) as [e|w]; [done|].
  destruct (float_of_int y) as [e|h]; [done|].
  destruct (nd_set (pxnorm np) i j (pxnorm_of lm)) as [a|] eqn:Ha; [|done].
  destruct (nd_set (px np) i j (px_of w h lm)) as [b|] eqn:Hb; cbn [fst pxnorm px].
  - by rewrite (nd_set_row _ _ _ _ _ i' Ha), (nd_set_row _ _ _ _ _ i' Hb).
  - by rewrite (nd_set_row _ _ _ _ _ i' Ha).
Qed.

Lemma write_landmark_shape (x y : Z) (c : nat * nat * Landmark) (np : nddict) (n m : nat) :
  nd_shape n m np -> nd_shape n m (write_landmark x y c np).1.
Proof.
  destruct c as [[i j] lm]. intros [H3 H2]. unfold write_landmark.
  destruct (float_of_int x) as [e|w]; [done|].
  destruct (float_of_int y) as [e|h]; [done|].
  destruct (nd_set (pxnorm np) i j (pxnorm_of lm)) as [a|] eqn:Ha; [|done].
  pose proof (nd_set_keeps_shape _ _ _ _ _ _ _ Ha H3) as H3'.
  destruct (nd_set (px np) i j (px_of w h lm)) as [b|] eqn:Hb; cbn [fst]; [|done].
  pose proof (nd_set_keeps_shape _ _ _ _ _ _ _ Hb H2) as H2'. done.
Qed.

(** A pass that failed fails again, and changes nothing more. *)
Lemma write_landmark_Raised_again (x y : Z) (c : nat * nat * Landmark) (np np' : nddict) (e : exn) :
  write_landmark x y c np = (np', Raised e) ->
  write_landmark x y c np' = (np', Raised e).
Proof.
  destruct c as [[i j] lm]. unfold write_landmark.
  destruct (float_of_int x) as [e'|w]; [by intros [= <- <-]|].
  destruct (float_of_int y) as [e'|h]; [by intros [= <- <-]|].
  destruct (nd_set (pxnorm np) i j (pxnorm_of lm)) as [a|] eqn:Ha.
  - destruct (nd_set (px np) i j (px_of w h lm)) as [b|] eqn:Hb; [done|].
    intros [= <- <-]. cbn [pxnorm px].
    rewrite (nd_set_id a i j (pxnorm_of lm)), Hb; [done|].
    rewrite (nd_set_cell _ _ _ _ _ i j Ha). by rewrite decide_True.
  - intros [= <- <-]. by rewrite Ha.
Qed.

(** A pass over arrays that already hold its values returns them as
    they are. *)
Lemma write_landmark_skip (x y : Z) (i j : nat) (lm : Landmark) (np : nddict) (w h : float) :
  float_of_int x = inr w -> float_of_int y = inr h ->
  cell (pxnorm np) i j = Some (pxnorm_of lm) ->
  cell (px np) i j = Some (px_of w h lm) ->
  write_landmark x y (i, j, lm) np = (np, Returned tt).
Proof.
  intros Hw Hh H3 H2. unfold write_landmark. rewrite Hw, Hh.
  rewrite (nd_set_id _ _ _ _ H3), (nd_set_id _ _ _ _ H2). by destruct np.
Qed.

Lemma write_all_other (x y : Z) (cs : list (nat * nat * Landmark)) :
  forall (np : nddict) (i' j' : nat),
  (i', j') ∉ cs.*1 ->
  cell (pxnorm (write_all x y cs np).1) i' j' = cell (pxnorm np) i' j' /\
  cell (px (write_all x y cs np).1) i' j' = cell (px np) i' j'.
Proof.
  induction cs as [|[[i j] lm] cs IH]; intros np i' j' Hnot; cbn [write_all]; [done|].
  cbn [fmap list_fmap fst] in Hnot. apply not_elem_of_cons in Hnot as [Hne Hnot].
  pose proof (write_landmark_other x y i j lm np i' j' Hne) as Hone.
  destruct (write_landmark x y (i, j, lm) np) as [np' [[]|e]]; cbn [fst] in *.
  - destruct (IH np' i' j' Hnot) as [-> ->]. exact Hone.
  - exact Hone.
Qed.

Lemma write_all_shape (x y : Z) (cs : list (nat * nat * Landmark)) (n m : nat) :
  forall np : nddict, nd_shape n m np -> nd_shape n m (write_all x y cs np).1.
Proof.
  induction cs as [|c cs IH]; intros np Hnp; cbn [write_all]; [done|].
  pose proof (write_landmark_shape x y c np n m Hnp) as Hone.
  destruct (write_landmark x y c np) as [np' [[]|e]]; cbn [fst] in *; [by apply IH | done].
Qed.

Lemma write_all_other_row (x y : Z) (cs : list (nat * nat * Landmark)) (i' : nat) :
  forall np : nddict,
  (forall i j lm, (i, j, lm) ∈ cs -> i <> i') ->
  pxnorm (write_all x y cs np).1 !! i' = pxnorm np !! i' /\
  px (write_all x y cs np).1 !! i' = px np !! i'.
Proof.
  induction cs as [|[[i j] lm] cs IH]; intros np Hrows; cbn [write_all]; [done|].
  assert (Hi : i' <> i) by (intros ->; eapply Hrows; [left | done]).
  pose proof (write_landmark_other_row x y i j lm np i' Hi) as Hone.
  destruct (write_landmark x y (i, j, lm) np) as [np' [[]|e]]; cbn [fst] in *.
  - destruct (IH np') as [-> ->]; [|exact Hone].
    intros i0 j0 lm0 Hin. eapply Hrows. by right.
  - exact Hone.
Qed.

(** After a loop that returned, each visited cell holds the value of
    its landmark. *)
Lemma write_all_written (x y : Z) (cs : list (nat * nat * Landmark)) :
  forall (np np' : nddict) (i j : nat) (lm : Landmark),
  NoDup cs.*1 ->
  write_all x y cs np = (np', Returned tt) ->
  (i, j, lm) ∈ cs ->
  exists w h, float_of_int x = inr w /\ float_of_int y = inr h /\
              cell (pxnorm np') i j = Some (pxnorm_of lm) /\
              cell (px np') i j = Some (px_of w h lm).
Proof.
  induction cs as [|[[i0 j0] lm0] cs IH]; intros np np' i j lm Hnd Hall Hin.
  - by apply elem_of_nil in Hin.
  - cbn [fmap list_fmap fst] in Hnd. apply NoDup_cons in Hnd as [Hnot Hnd].
    cbn [write_all] in Hall.
    destruct (write_landmark x y (i0, j0, lm0) np) as [npa [[]|e]] eqn:Hone; [|done].
    apply elem_of_cons in Hin as [[= -> -> ->]|Hin].
    + apply write_landmark_Returned in Hone as (w & h & a & b & Hw & Hh & Ha & Hb & ->).
      exists w, h. split; [done|]. split; [done|].
      destruct (write_all_other x y cs (NdDict a b) i0 j0 Hnot) as [H3 H2].
      rewrite Hall in H3, H2. cbn [fst pxnorm px] in H3, H2. rewrite H3, H2.
      rewrite (nd_set_cell _ _ _ _ _ i0 j0 Ha), (nd_set_cell _ _ _ _ _ i0 j0 Hb).
      by rewrite !decide_True.
    + by apply (IH npa).
Qed.

(** Running the loop again over its own result changes nothing, whether
    it returned or raised. *)
Lemma write_all_idem (x y : Z) (cs : list (nat * nat * Landmark)) :
  forall np : nddict,
  NoDup cs.*1 ->
  write_all x y cs (write_all x y cs np).1 = write_all x y cs np.
Proof.
  induction cs as [|[[i j] lm] cs IH]; intros np Hnd; [done|].
  cbn [fmap list_fmap fst] in Hnd. apply NoDup_cons in Hnd as [Hnot Hnd].
  cbn [write_all].
  destruct (write_landmark x y (i, j, lm) np) as [npa [[]|e]] eqn:Hone.
  - destruct (write_all x y cs npa) as [npb ob] eqn:Hrest. cbn [fst write_all].
    apply write_landmark_Returned in Hone as (w & h & a & b & Hw & Hh & Ha & Hb & ->).
    destruct (write_all_other x y cs (NdDict a b) i j Hnot) as [H3 H2].
    rewrite Hrest in H3, H2. cbn [fst pxnorm px] in H3, H2.
    rewrite (nd_set_cell _ _ _ _ _ i j Ha), decide_True in H3 by done.
    rewrite (nd_set_cell _ _ _ _ _ i j Hb), decide_True in H2 by done.
    rewrite (write_landmark_skip x y i j lm npb w h Hw Hh H3 H2).
    specialize (IH (NdDict a b) Hnd). by rewrite Hrest in IH.
  - cbn [fst write_all]. by rewrite (write_landmark_Raised_again _ _ _ _ _ _ Hone).
Qed.

Lemma write_all_in_range (x y : Z) (w h : float) (n m : nat) (cs : list (nat * nat * Landmark)) :
  forall np : nddict,
  float_of_int x = inr w -> float_of_int y = inr h ->
  nd_shape n m np ->
  (forall i j lm, (i, j, lm) ∈ cs -> (i < n)%nat /\ (j < m)%nat) ->
  (write_all x y cs np).2 = Returned tt.
Proof.
  intros np Hw Hh. revert np.
  induction cs as [|[[i j] lm] cs IH]; intros np Hnp Hcs; [done|].
  cbn [write_all].
  pose proof (write_landmark_shape x y (i, j, lm) np n m Hnp) as Hshape.
  destruct (Hcs i j lm) as [Hi Hj]; [left|].
  destruct Hnp as [[Hn3 Hm3] [Hn2 Hm2]].
  unfold write_landmark in *. rewrite Hw, Hh in *.
  destruct (nd_set_in_range (pxnorm np) i j (pxnorm_of lm) n m Hn3 Hm3 Hi Hj) as [a Ha].
  destruct (nd_set_in_range (px np) i j (px_of w h lm) n m Hn2 Hm2 Hi Hj) as [b Hb].
  rewrite Ha, Hb in *. cbn [fst] in Hshape.
  apply IH; [done|]. intros i0 j0 lm0 Hin. apply (Hcs i0 j0 lm0). by right.
Qed.

(** ** The cells that the loops visit *)

Lemma elem_of_landmark_cmds (face : Face) : forall (i j i' j' : nat) (lm : Landmark),
  (i', j', lm) ∈ landmark_cmds i j face <->
  i' = i /\ (j <= j')%nat /\ face !! (j' - j)%nat = Some lm.
Proof.
  induction face as [|lm0 face IH]; intros i j i' j' lm; cbn [landmark_cmds].
  - split; [by intros ?%elem_of_nil | by intros (_ & _ & ?)].
  - rewrite elem_of_cons, IH. split.
    + intros [[= -> -> ->]|(-> & Hj & Hlm)].
      * by rewrite Nat.sub_diag.
      * split; [done|]. split; [lia|].
        by replace (j' - j)%nat with (S (j' - S j)) by lia.
    + intros (-> & Hj & Hlm). destruct (decide (j' = j)) as [->|Hne].
      * left. rewrite Nat.sub_diag in Hlm. by injection Hlm as ->.
      * right. split; [done|]. split; [lia|].
        by replace (j' - j)%nat with (S (j' - S j)) in Hlm by lia.
Qed.

Lemma elem_of_face_cmds (faces : list Face) : forall (i i' j' : nat) (lm : Landmark),
  (i', j', lm) ∈ face_cmds i faces <->
  (i <= i')%nat /\ exists face, faces !! (i' - i)%nat = Some face /\ face !! j' = Some lm.
Proof.
  induction faces as [|face faces IH]; intros i i' j' lm; cbn [face_cmds].
  - split; [by intros ?%elem_of_nil | by intros (_ & face & ? & _)].
  - rewrite elem_of_app, elem_of_landmark_cmds, IH, Nat.sub_0_r. split.
    + intros [(-> & _ & Hlm)|(Hi & face' & Hface & Hlm)].
      * split; [done|]. exists face. by rewrite Nat.sub_diag.
      * split; [lia|]. exists face'.
        by replace (i' - i)%nat with (S (i' - S i)) by lia.
    + intros (Hi & face' & Hface & Hlm). destruct (decide (i' = i)) as [->|Hne].
      * left. rewrite Nat.sub_diag in Hface. injection Hface as ->.
        split; [done|]. split; [lia | done].
      * right. split; [lia|]. exists face'.
        by replace (i' - i)%nat with (S (i' - S i)) in Hface by lia.
Qed.

Lemma landmark_cmds_index (face : Face) (i j i' j' : nat) :
  (i', j') ∈ (landmark_cmds i j face).*1 -> i' = i /\ (j <= j')%nat.
Proof.
  intros ([[i0 j0] lm] & [= -> ->] & Hin)%list_elem_of_fmap.
  apply elem_of_landmark_cmds in Hin as (-> & Hj & _). done.
Qed.

Lemma face_cmds_index (faces : list Face) (i i' j' : nat) :
  (i', j') ∈ (face_cmds i faces).*1 -> (i <= i')%nat.
Proof.
  intros ([[i0 j0] lm] & [= -> ->] & Hin)%list_elem_of_fmap.
  by apply elem_of_face_cmds in Hin as (Hi & _).
Qed.

Lemma NoDup_landmark_cmds (face : Face) : forall i j : nat,
  NoDup (landmark_cmds i j face).*1.
Proof.
  induction face as [|lm face IH]; intros i j; cbn [landmark_cmds fmap list_fmap fst].
  - constructor.
  - apply NoDup_cons. split; [|apply IH].
    intros [_ Hj]%landmark_cmds_index. lia.
Qed.

Lemma NoDup_face_cmds (faces : list Face) : forall i : nat,
  NoDup (face_cmds i faces).*1.
Proof.
  induction faces as [|face faces IH]; intros i; cbn [face_cmds].
  - constructor.
  - rewrite fmap_app. apply NoDup_app. split; [apply NoDup_landmark_cmds|].
    split; [|apply IH].
    intros [i' j'] [-> _]%landmark_cmds_index Hi%face_cmds_index. lia.
Qed.

(** ** A frame with faces *)

Lemma detect_Returned (s : MPFaceMesh) (frame : Frame) (faces : list Face) :
  face_mesh s frame = Some faces -> faces <> [] ->
  r_out (detect (Some frame) s) = Returned tt ->
  exists np',
    write_all (ctx_x s) (ctx_y s) (face_cmds 0 faces) (face_mesh_np s) = (np', Returned tt) /\
    r_self (detect (Some frame) s) =
      with_detected (i32 (Z.of_nat (length faces)))
        (with_store np' (with_np np' (with_results (Some faces) s))).
Proof.
  intros Hres Hne. rewrite detect_eq. unfold detect_run. rewrite Hres.
  destruct faces as [|face faces]; [done|].
  destruct (write_all _ _ _ _) as [np' [[]|e]]; [|done].
  intros _. by exists np'.
Qed.

(** C5. After a [detect] that returned, the pixel-space cell of every
    face [i] and landmark [j] that the model reported holds
    [(w * (1 - x), h * (1 - y))], where [x] and [y] are the landmark's
    normalized coordinates and [w] and [h] the context's dimensions as
    floats; the products are doubles and the cell keeps them in single
    precision.  The shared store and the numpy array agree on it. *)
Theorem detect_pixel_coordinates (s : MPFaceMesh) (frame : Frame)
  (faces : list Face) (face : Face) (lm : Landmark) (i j : nat) :
  face_mesh s frame = Some faces ->
  r_out (detect (Some frame) s) = Returned tt ->
  faces !! i = Some face -> face !! j = Some lm ->
  exists w h,
    float_of_int (ctx_x s) = inr w /\ float_of_int (ctx_y s) = inr h /\
    cell (px (ctx_s_face_mesh (r_self (detect (Some frame) s)))) i j =
      Some (Vec2 (f32_of_float (float_mul w (float_sub float_one (lm_x lm))))
                 (f32_of_float (float_mul h (float_sub float_one (lm_y lm))))) /\
    cell (px (face_mesh_np (r_self (detect (Some frame) s)))) i j =
      Some (Vec2 (f32_of_float (float_mul w (float_sub float_one (lm_x lm))))
                 (f32_of_float (float_mul h (float_sub float_one (lm_y lm))))).
Proof.
  intros Hres Hout Hface Hlm.
  assert (Hne : faces <> []) by (intros ->; done).
  destruct (detect_Returned s frame faces Hres Hne Hout) as (np' & Hall & ->).
  cbn [with_detected with_store with_np ctx_s_face_mesh face_mesh_np].
  destruct (write_all_written _ _ _ _ _ i j lm (NoDup_face_cmds faces 0) Hall)
    as (w & h & Hw & Hh & _ & Hpx).
  { apply elem_of_face_cmds. split; [lia|]. exists face. by rewrite Nat.sub_0_r. }
  exists w, h. by rewrite Hpx.
Qed.

Lemma detect_pixel_coordinates_witness :
  cell (px (ctx_s_face_mesh (r_self (detect (Some frame2) ex_self)))) 1 477 =
    Some (Vec2 (S754_finite false 11796480 (-13)) (S754_finite false 8847360 (-14))).
Proof.
  assert (Hres : face_mesh ex_self frame2
                 = Some [replicate 478 (ex_lm 0); replicate 478 (ex_lm 1)])
    by (vm_compute; reflexivity).
  assert (Hout : r_out (detect (Some frame2) ex_self) = Returned tt)
    by (vm_compute; reflexivity).
  destruct (detect_pixel_coordinates ex_self frame2
              [replicate 478 (ex_lm 0); replicate 478 (ex_lm 1)]
              (replicate 478 (ex_lm 1)) (ex_lm 1) 1 477
              Hres Hout eq_refl eq_refl)
    as (w & h & Hw & Hh & Hpx & _).
  assert (Hw' : float_of_int (ctx_x ex_self) = inr (fl 1920 0))
    by (vm_compute; reflexivity).
  assert (Hh' : float_of_int (ctx_y ex_self) = inr (fl 1080 0))
    by (vm_compute; reflexivity).
  rewrite Hw' in Hw. rewrite Hh' in Hh. injection Hw as <-. injection Hh as <-.
  rewrite Hpx. vm_compute. reflexivity.
Defined.

(** ** Detecting twice *)

Lemma nd_fill_idem (v : f32) (st : nddict) : nd_fill v (nd_fill v st) = nd_fill v st.
Proof.
  unfold nd_fill; cbn [pxnorm px]. f_equal; rewrite map_map; apply map_ext;
    intros row; by rewrite map_map.
Qed.

Lemma detect_run_again (frame : Frame) (s : MPFaceMesh) :
  detect_run frame (r_self (detect_run frame s)) =
  Run (r_out (detect_run frame s)) (r_self (detect_run frame s)) [Process frame].
Proof.
  destruct s as [x y st nc cfg fm cs np d u res p].
  unfold detect_run.
  cbn -[write_all face_cmds nd_fill i32].
  destruct (fm frame) as [[|face faces]|] eqn:Hres.
  - cbn -[nd_fill i32]. rewrite Hres. cbn -[nd_fill i32]. by rewrite nd_fill_idem.
  - pose proof (write_all_idem x y (face_cmds 0 (face :: faces)) np
                  (NoDup_face_cmds _ 0)) as Hidem.
    destruct (write_all x y (face_cmds 0 (face :: faces)) np)
      as [np' [[]|e]] eqn:Hall; cbn [fst] in Hidem;
      cbn -[write_all face_cmds i32]; rewrite Hres, Hidem; reflexivity.
  - cbn -[nd_fill i32]. rewrite Hres. cbn -[nd_fill i32]. by rewrite nd_fill_idem.
Qed.

(** C9. The model being a function of the frame, a second [detect] on
    the same frame ends as the first did and leaves the instance, shared
    store and detected-count included, exactly as the first left it. *)
Theorem detect_idempotent (s : MPFaceMesh) (frame : option Frame) :
  r_self (detect frame (r_self (detect frame s))) = r_self (detect frame s) /\
  r_out (detect frame (r_self (detect frame s))) = r_out (detect frame s) /\
  ctx_s_face_mesh (r_self (detect frame (r_self (detect frame s))))
    = ctx_s_face_mesh (r_self (detect frame s)) /\
  detected (r_self (detect frame (r_self (detect frame s))))
    = detected (r_self (detect frame s)).
Proof.
  assert (H : detect frame (r_self (detect frame s)) =
              Run (r_out (detect frame s)) (r_self (detect frame s))
                  (r_calls (detect frame s))).
  { destruct frame as [frame|]; [|done].
    rewrite !detect_eq, detect_run_again. f_equal.
    unfold detect_run. destruct (face_mesh s frame) as [[|face faces]|]; try done.
    by destruct (write_all _ _ _ _) as [np' [[]|e]]. }
  by rewrite H.
Qed.

(** ** Faces beyond the current count *)

Lemma detect_other_rows (s : MPFaceMesh) (frame : Frame) (faces : list Face) (i : nat) :
  face_mesh s frame = Some faces -> faces <> [] ->
  ctx_s_face_mesh s = face_mesh_np s ->
  (length faces <= i)%nat ->
  pxnorm (ctx_s_face_mesh (r_self (detect (Some frame) s))) !! i
    = pxnorm (ctx_s_face_mesh s) !! i /\
  px (ctx_s_face_mesh (r_self (detect (Some frame) s))) !! i
    = px (ctx_s_face_mesh s) !! i.
Proof.
  intros Hres Hne Hsync Hi. rewrite detect_eq. unfold detect_run. rewrite Hres.
  destruct faces as [|face faces]; [done|].
  pose proof (write_all_other_row (ctx_x s) (ctx_y s) (face_cmds 0 (face :: faces)) i
                (face_mesh_np s)) as Hrows.
  destruct (write_all _ _ _ _) as [np' [[]|e]];
    cbn [r_self with_detected with_store with_np with_results ctx_s_face_mesh fst] in *;
    [|done].
  rewrite Hsync. apply Hrows.
  intros i0 j0 lm0 (_ & face0 & Hface0 & _)%elem_of_face_cmds ->.
  apply lookup_lt_Some in Hface0. lia.
Qed.

(** C10. When a detection of [K > 0] faces follows one that returned
    with [K' > K] faces, the store's entries for the faces [K .. K'-1]
    are what the earlier detection left there, the values of the earlier
    faces' landmarks: the later run writes rows below [K] only, and the
    store is zeroed nowhere on this path. *)
Theorem detect_keeps_stale_faces (s : MPFaceMesh) (frame' frame : Frame)
  (faces' faces : list Face) (i : nat) :
  face_mesh s frame' = Some faces' ->
  face_mesh s frame = Some faces ->
  r_out (detect (Some frame') s) = Returned tt ->
  (0 < length faces < length faces')%nat ->
  (length faces <= i < length faces')%nat ->
  let s1 := r_self (detect (Some frame') s) in
  let s2 := r_self (detect (Some frame) s1) in
  pxnorm (ctx_s_face_mesh s2) !! i = pxnorm (ctx_s_face_mesh s1) !! i /\
  px (ctx_s_face_mesh s2) !! i = px (ctx_s_face_mesh s1) !! i /\
  (forall face j lm, faces' !! i = Some face -> face !! j = Some lm ->
     exists w h,
       float_of_int (ctx_x s) = inr w /\ float_of_int (ctx_y s) = inr h /\
       cell (pxnorm (ctx_s_face_mesh s2)) i j = Some (pxnorm_of lm) /\
       cell (px (ctx_s_face_mesh s2)) i j = Some (px_of w h lm)).
Proof.
  intros Hres' Hres Hout [HK HK'] [Hi Hi'] s1 s2.
  assert (Hne' : faces' <> []) by (intros ->; cbn in HK'; lia).
  assert (Hne : faces <> []) by (intros ->; cbn in HK; lia).
  destruct (detect_Returned s frame' faces' Hres' Hne' Hout) as (np' & Hall & Hs1).
  assert (Hfm : face_mesh s1 = face_mesh s) by apply (detect_wiring (Some frame') s).
  assert (Hsync : ctx_s_face_mesh s1 = face_mesh_np s1) by (subst s1; by rewrite Hs1).
  assert (Hres1 : face_mesh s1 frame = Some faces) by (by rewrite Hfm).
  destruct (detect_other_rows s1 frame faces i Hres1 Hne Hsync Hi) as [H3 H2].
  split; [exact H3|]. split; [exact H2|].
  intros face j lm Hface Hlm.
  destruct (write_all_written _ _ _ _ _ i j lm (NoDup_face_cmds faces' 0) Hall)
    as (w & h & Hw & Hh & Hc3 & Hc2).
  { apply elem_of_face_cmds. split; [lia|]. exists face. by rewrite Nat.sub_0_r. }
  exists w, h. split; [done|]. split; [done|].
  unfold cell in *. subst s2. rewrite H3, H2. subst s1. rewrite Hs1.
  cbn [with_detected with_store ctx_s_face_mesh]. done.
Qed.

Lemma detect_keeps_stale_faces_witness :
  cell (px (ctx_s_face_mesh (r_self (detect (Some frame1) ex_two)))) 1 477 =
    Some (Vec2 (S754_finite false 11796480 (-13)) (S754_finite false 8847360 (-14))) /\
  detected (r_self (detect (Some frame1) ex_two)) = 1.
Proof.
  assert (Hres' : face_mesh ex_self frame2
                  = Some [replicate 478 (ex_lm 0); replicate 478 (ex_lm 1)])
    by (vm_compute; reflexivity).
  assert (Hres : face_mesh ex_self frame1 = Some [replicate 478 (ex_lm 0)])
    by (vm_compute; reflexivity).
  assert (Hout : r_out (detect (Some frame2) ex_self) = Returned tt)
    by (vm_compute; reflexivity).
  split; [|vm_compute; reflexivity].
  destruct (detect_keeps_stale_faces ex_self frame2 frame1
              [replicate 478 (ex_lm 0); replicate 478 (ex_lm 1)]
              [replicate 478 (ex_lm 0)] 1
              Hres' Hres Hout
              (conj (le_n 1) (le_n 2)) (conj (le_n 1) (le_n 2)))
    as (_ & _ & Hcells).
  destruct (Hcells (replicate 478 (ex_lm 1)) 477%nat (ex_lm 1) eq_refl eq_refl)
    as (w & h & Hw & Hh & _ & Hpx).
  assert (Hw' : float_of_int (ctx_x ex_self) = inr (fl 1920 0))
    by (vm_compute; reflexivity).
  assert (Hh' : float_of_int (ctx_y ex_self) = inr (fl 1080 0))
    by (vm_compute; reflexivity).
  rewrite Hw' in Hw. rewrite Hh' in Hh. injection Hw as <-. injection Hh as <-.
  unfold ex_two. rewrite Hpx. vm_compute. reflexivity.
Defined.

(** ** Finite results of the float operations *)

(** *** Binary digits *)

Lemma digits2_size (p : positive) : digits2_pos p = Pos.size p.
Proof. induction p as [p IH|p IH|]; cbn; by rewrite ?IH. Qed.

Lemma digits2_bounds (p : positive) :
  2 ^ (Zpos (digits2_pos p) - 1) <= Zpos p < 2 ^ Zpos (digits2_pos p).
Proof.
  rewrite digits2_size. split.
  - pose proof (Pos.size_le p) as H.
    assert (H' : 2 ^ Zpos (Pos.size p) <= 2 * Zpos p).
    { change (2 * Zpos p) with (Zpos p~0). rewrite <- Pos2Z.inj_pow. by apply Pos2Z.pos_le_pos. }
    replace (Zpos (Pos.size p)) with (Z.succ (Zpos (Pos.size p) - 1)) in H' by lia.
    rewrite Z.pow_succ_r in H' by lia. lia.
  - pose proof (Pos.size_gt p) as H.
    rewrite <- Pos2Z.inj_pow. by apply Pos2Z.pos_lt_pos.
Qed.

Lemma Zdigits2_le (x k : Z) : 0 <= k -> 0 <= x < 2 ^ k -> Zdigits2 x <= k.
Proof.
  intros Hk [H0 Hx]. destruct x as [|p|p]; cbn; [lia| |lia].
  destruct (digits2_bounds p) as [Hlo _].
  apply Z.nlt_ge. intros Hlt.
  assert (2 ^ k <= 2 ^ (Zpos (digits2_pos p) - 1)) by (apply Z.pow_le_mono_r; lia).
  lia.
Qed.

Lemma Zdigits2_ge (x k : Z) : 0 <= k -> 2 ^ k <= x -> k + 1 <= Zdigits2 x.
Proof.
  intros Hk Hx. assert (0 < 2 ^ k) by (apply Z.pow_pos_nonneg; lia).
  destruct x as [|p|p]; cbn; [lia| |lia].
  destruct (digits2_bounds p) as [_ Hhi].
  apply Z.nlt_ge. intros Hlt.
  assert (2 ^ Zpos (digits2_pos p) <= 2 ^ k) by (apply Z.pow_le_mono_r; lia).
  lia.
Qed.

Lemma div_pow2_lt (x n k : Z) : 0 <= n <= k -> 0 <= x < 2 ^ k -> x / 2 ^ n < 2 ^ (k - n).
Proof.
  intros Hn Hx. assert (0 < 2 ^ n) by (apply Z.pow_pos_nonneg; lia).
  apply Z.div_lt_upper_bound; [done|].
  rewrite <- Z.pow_add_r by lia. replace (n + (k - n)) with k by lia. apply Hx.
Qed.

Lemma div_pow2_ge (x n k : Z) : 0 <= n <= k -> 2 ^ k <= x -> 2 ^ (k - n) <= x / 2 ^ n.
Proof.
  intros Hn Hx. assert (0 < 2 ^ n) by (apply Z.pow_pos_nonneg; lia).
  apply Z.div_le_lower_bound; [done|].
  rewrite <- Z.pow_add_r by lia. replace (n + (k - n)) with k by lia. apply Hx.
Qed.

(** *** Shifting right *)

Lemma shr_1_m (mrs : shr_record) :
  0 <= shr_m mrs -> shr_m (shr_1 mrs) = shr_m mrs / 2.
Proof.
  destruct mrs as [m r s]; cbn [shr_m]. intros Hm.
  destruct m as [|[p|p|]|p]; cbn [shr_1 shr_m]; try done; try lia.
  - rewrite Pos2Z.inj_xI. apply (Z.div_unique _ _ _ 1); lia.
  - rewrite Pos2Z.inj_xO. apply (Z.div_unique _ _ _ 0); lia.
Qed.

Lemma pow2_xO (p : positive) : 2 ^ Zpos p~0 = 2 ^ Zpos p * 2 ^ Zpos p.
Proof. rewrite Pos2Z.inj_xO, <- Z.pow_add_r by lia. f_equal. lia. Qed.

Lemma pow2_xI (p : positive) : 2 ^ Zpos p~1 = 2 * (2 ^ Zpos p * 2 ^ Zpos p).
Proof.
  rewrite Pos2Z.inj_xI, <- Z.pow_add_r by lia.
  replace (2 * Zpos p + 1) with (Z.succ (Zpos p + Zpos p)) by lia.
  by rewrite Z.pow_succ_r by lia.
Qed.

Lemma shr_m_iter (p : positive) : forall mrs : shr_record,
  0 <= shr_m mrs -> shr_m (SpecFloat.iter_pos shr_1 p mrs) = shr_m mrs / 2 ^ Zpos p.
Proof.
  assert (Hpow : forall n, 0 < 2 ^ Zpos n) by (intros n; by apply Z.pow_pos_nonneg).
  assert (Hpos : forall x n, 0 <= x -> 0 <= x / 2 ^ Zpos n)
    by (intros x n Hx; apply Z.div_pos; [done | apply Hpow]).
  assert (Hhalf : forall x, 0 <= x -> 0 <= x / 2) by (intros x Hx; by apply Z.div_pos).
  induction p as [p IH|p IH|]; intros mrs Hm; cbn [SpecFloat.iter_pos].
  - rewrite IH; rewrite IH; rewrite ?shr_1_m; auto.
    pose proof (Hpow p). rewrite !Z.div_div by lia. by rewrite pow2_xI, Z.mul_assoc.
  - rewrite IH; rewrite IH; auto.
    pose proof (Hpow p). rewrite !Z.div_div by lia. by rewrite pow2_xO.
  - by rewrite shr_1_m, Z.pow_1_r.
Qed.

Section Rounding.
Variables prec emax : Z.
Hypothesis Hprec : 0 < prec.
Hypothesis Hemax : prec < emax.

Local Abbreviation fexp := (fexp prec emax).
Local Abbreviation emin := (emin prec emax).

Lemma fexp_mono (d d' : Z) : d <= d' -> fexp d <= fexp d'.
Proof. unfold SpecFloat.fexp. lia. Qed.

Lemma fexp_le_top (d : Z) : d <= emax -> fexp d <= emax - prec.
Proof. unfold SpecFloat.fexp, SpecFloat.emin. lia. Qed.

Lemma shr_fexp_spec (m e : Z) (l : location) :
  0 <= m ->
  (shr_fexp prec emax m e l).2 = Z.max e (fexp (Zdigits2 m + e)) /\
  shr_m (shr_fexp prec emax m e l).1
    = m / 2 ^ (Z.max e (fexp (Zdigits2 m + e)) - e).
Proof.
  intros Hm. unfold shr_fexp, shr.
  assert (Hrec : shr_m (shr_record_of_loc m l) = m) by (by destruct l as [|[]]).
  destruct (fexp (Zdigits2 m + e) - e) as [|p|p] eqn:Hn; cbn [fst snd].
  - rewrite Hrec. replace (Z.max e (fexp (Zdigits2 m + e))) with e by lia.
    by rewrite Z.sub_diag, Z.pow_0_r, Z.div_1_r.
  - rewrite shr_m_iter, Hrec by (rewrite Hrec; done).
    replace (Z.max e (fexp (Zdigits2 m + e))) with (e + Zpos p) by lia.
    split; [done|]. f_equal. f_equal. lia.
  - rewrite Hrec. replace (Z.max e (fexp (Zdigits2 m + e))) with e by lia.
    by rewrite Z.sub_diag, Z.pow_0_r, Z.div_1_r.
Qed.

Lemma round_nearest_even_bounds (m : Z) (l : location) :
  m <= round_nearest_even m l <= m + 1.
Proof.
  unfold round_nearest_even. destruct l as [|[]]; try lia.
  destruct (Z.even m); lia.
Qed.

(** Rounding a mantissa that sits at or below its canonical exponent
    gives zero or a finite float that is again at or below its
    canonical exponent, and at most one binade up. *)
Lemma binary_round_aux_representable (s : bool) (m : positive) (e B : Z) :
  e <= fexp (Zpos (digits2_pos m) + e) ->
  Zpos (digits2_pos m) + e + 1 <= B -> emin + 1 <= B -> B <= emax ->
  representable prec emax B (binary_round_aux prec emax s (Zpos m) e loc_Exact).
Proof.
  intros He HB Hmin Hmax. unfold binary_round_aux.
  set (D := Zpos (digits2_pos m)) in *. set (d := D + e) in *.
  destruct (shr_fexp_spec (Zpos m) e loc_Exact) as [He1 Hm1]; [lia|].
  destruct (shr_fexp prec emax (Zpos m) e loc_Exact) as [mrs1 e1].
  cbn [fst snd Zdigits2] in He1, Hm1. fold D d in He1, Hm1.
  rewrite <- He1 in Hm1.
  assert (He1' : e1 = fexp d) by lia. clear He1.
  set (m1 := shr_m mrs1) in *.
  destruct (digits2_bounds m) as [Hlo Hhi]. fold D in Hlo, Hhi.
  assert (HD : 1 <= D) by (subst D; lia).
  assert (Hm1pos : 0 <= m1).
  { rewrite Hm1. apply Z.div_pos; [lia|]. apply Z.pow_pos_nonneg; lia. }
  pose proof (round_nearest_even_bounds m1 (loc_of_shr_record mrs1)) as Hr.
  set (mr := round_nearest_even m1 (loc_of_shr_record mrs1)) in *.
  destruct (shr_fexp_spec mr e1 loc_Exact) as [He2 Hm2]; [lia|].
  destruct (shr_fexp prec emax mr e1 loc_Exact) as [mrs2 e2].
  cbn [fst snd] in He2, Hm2. rewrite <- He2 in Hm2.
  set (Dr := Zdigits2 mr) in *. set (dr := Dr + e1) in *.
  assert (Hm2pos : 0 <= shr_m mrs2).
  { rewrite Hm2. apply Z.div_pos; [lia|]. apply Z.pow_pos_nonneg; lia. }
  destruct (shr_m mrs2) as [|p|p] eqn:Hp; [done| |lia].
  (* the rounded mantissa has at most one more digit than fits *)
  assert (Hdr_hi : dr <= Z.max d emin + 1).
  { subst dr Dr. destruct (Z.le_gt_cases (e1 - e) D) as [Hn|Hn].
    - assert (m1 < 2 ^ (D - (e1 - e))) by (rewrite Hm1; apply div_pow2_lt; lia).
      assert (Zdigits2 mr <= D - (e1 - e) + 1).
      { apply Zdigits2_le; [lia|]. split; [lia|].
        replace (D - (e1 - e) + 1) with (Z.succ (D - (e1 - e))) by lia.
        rewrite Z.pow_succ_r by lia. lia. }
      lia.
    - assert (m1 = 0).
      { rewrite Hm1. apply Z.div_small. split; [lia|].
        eapply Z.lt_le_trans; [exact Hhi|]. apply Z.pow_le_mono_r; lia. }
      assert (Zdigits2 mr <= 1) by (apply Zdigits2_le; lia).
      unfold SpecFloat.fexp in He1'. lia. }
  (* and at least as many as before, unless it underflowed *)
  assert (Hdr_lo : fexp d <= fexp dr).
  { destruct (Z.le_gt_cases (e1 - e) (D - 1)) as [Hn|Hn].
    - apply fexp_mono. subst dr Dr.
      assert (2 ^ (D - 1 - (e1 - e)) <= m1) by (rewrite Hm1; apply div_pow2_ge; lia).
      assert (D - 1 - (e1 - e) + 1 <= Zdigits2 mr).
      { apply Zdigits2_ge; [lia|]. lia. }
      lia.
    - unfold SpecFloat.fexp in *. lia. }
  assert (He2' : e2 = fexp dr) by lia. clear He2.
  (* the final mantissa keeps the magnitude [dr] *)
  assert (Hmr : 0 < mr).
  { destruct (Z.le_gt_cases mr 0) as [Hle|]; [|done].
    assert (mr = 0) by lia. rewrite H, Z.div_0_l in Hm2; [lia|].
    apply Z.pow_nonzero; lia. }
  assert (HDr : 2 ^ (Dr - 1) <= mr < 2 ^ Dr).
  { subst Dr. destruct mr as [|q|q]; [lia| |lia]. apply digits2_bounds. }
  assert (HDr1 : 1 <= Dr).
  { subst Dr. destruct mr as [|q|q]; cbn; lia. }
  assert (Hn2 : e2 - e1 <= Dr - 1).
  { apply Z.nlt_ge. intros Hlt.
    assert (mr / 2 ^ (e2 - e1) = 0); [|lia].
    apply Z.div_small. split; [lia|].
    eapply Z.lt_le_trans; [apply HDr|]. apply Z.pow_le_mono_r; lia. }
  assert (Hpdig : Zpos (digits2_pos p) = Dr - (e2 - e1)).
  { change (Zpos (digits2_pos p)) with (Zdigits2 (Zpos p)).
    apply Z.le_antisymm.
    - apply Zdigits2_le; [lia|]. split; [lia|]. rewrite Hm2. apply div_pow2_lt; lia.
    - replace (Dr - (e2 - e1)) with (Dr - 1 - (e2 - e1) + 1) by lia.
      apply Zdigits2_ge; [lia|]. rewrite Hm2. apply div_pow2_ge; lia. }
  assert (Hmag : Zpos (digits2_pos p) + e2 = dr) by (subst dr; lia).
  assert (Htop : e2 <= emax - prec).
  { rewrite He2'. apply fexp_le_top. lia. }
  apply Z.leb_le in Htop as ->. cbn [representable].
  rewrite Hmag. split; [lia|lia].
Qed.

(** *** Shifting left *)

Lemma Zpos_iter_xO (m k : positive) : Zpos (Pos.iter xO m k) = Zpos m * 2 ^ Zpos k.
Proof.
  induction k as [|k IH] using Pos.peano_ind.
  - cbn [Pos.iter]. rewrite Z.pow_1_r. lia.
  - rewrite Pos.iter_succ, Pos2Z.inj_xO, IH, Pos2Z.inj_succ, Z.pow_succ_r by lia. lia.
Qed.

Lemma digits2_iter_xO (m k : positive) :
  Zpos (digits2_pos (Pos.iter xO m k)) = Zpos (digits2_pos m) + Zpos k.
Proof.
  induction k as [|k IH] using Pos.peano_ind.
  - cbn [Pos.iter digits2_pos]. lia.
  - rewrite Pos.iter_succ. cbn [digits2_pos]. rewrite Pos2Z.inj_succ, IH. lia.
Qed.

Lemma shl_align_spec (m : positive) (e e' : Z) :
  (shl_align m e e').2 = Z.min e e' /\
  Zpos (shl_align m e e').1 = Zpos m * 2 ^ (e - Z.min e e') /\
  Zpos (digits2_pos (shl_align m e e').1) + (shl_align m e e').2
    = Zpos (digits2_pos m) + e.
Proof.
  unfold shl_align. destruct (e' - e) as [|k|k] eqn:Hk; cbn [fst snd].
  - replace (Z.min e e') with e by lia. rewrite Z.sub_diag, Z.pow_0_r. lia.
  - replace (Z.min e e') with e by lia. rewrite Z.sub_diag, Z.pow_0_r. lia.
  - replace (Z.min e e') with e' by lia.
    rewrite Zpos_iter_xO, digits2_iter_xO.
    replace (e - e') with (Zpos k) by lia. lia.
Qed.

Lemma binary_round_representable (s : bool) (m : positive) (e B : Z) :
  Zpos (digits2_pos m) + e + 1 <= B -> emin + 1 <= B -> B <= emax ->
  representable prec emax B (binary_round prec emax s m e).
Proof.
  intros HB Hmin Hmax. unfold binary_round.
  destruct (shl_align_spec m e (fexp (Zpos (digits2_pos m) + e))) as (He' & _ & Hd).
  destruct (shl_align m e (fexp (Zpos (digits2_pos m) + e))) as [mz ez].
  cbn [fst snd] in He', Hd.
  apply binary_round_aux_representable; rewrite ?Hd; try done. lia.
Qed.

Lemma binary_normalize_representable (m e B : Z) (szero : bool) :
  Zdigits2 m + e + 1 <= B -> emin + 1 <= B -> B <= emax ->
  representable prec emax B (binary_normalize prec emax m e szero).
Proof.
  intros HB Hmin Hmax. destruct m as [|p|p]; cbn [binary_normalize Zdigits2] in *;
    [done | by apply binary_round_representable..].
Qed.

Lemma representable_mono (B B' : Z) (x : spec_float) :
  B <= B' -> representable prec emax B x -> representable prec emax B' x.
Proof. intros HB. destruct x as [| | |s m e]; cbn; try done. lia. Qed.

(** *** Subtraction and multiplication *)

Lemma SFsub_representable (x y : spec_float) (B : Z) :
  representable prec emax B x -> representable prec emax B y ->
  emin + 1 <= B + 2 -> B + 2 <= emax ->
  representable prec emax (B + 2) (SFsub prec emax x y).
Proof.
  intros Hx Hy Hmin Hmax.
  destruct x as [sx| | |sx mx ex], y as [sy| | |sy my ey]; try done.
  - by destruct sx, sy.
  - cbn [SFsub representable] in *. lia.
  - cbn [SFsub representable] in *. lia.
  - cbn [SFsub]. cbn [representable] in Hx, Hy.
    destruct Hx as [_ Hx], Hy as [_ Hy].
    apply binary_normalize_representable; [|done..].
    set (ez := Z.min ex ey).
    destruct (shl_align_spec mx ex ez) as (_ & Hvx & _).
    destruct (shl_align_spec my ey ez) as (_ & Hvy & _).
    replace (Z.min ex ez) with ez in Hvx by lia.
    replace (Z.min ey ez) with ez in Hvy by lia.
    destruct (digits2_bounds mx) as [_ Hbx]. destruct (digits2_bounds my) as [_ Hby].
    set (Dx := Zpos (digits2_pos mx)) in *. set (Dy := Zpos (digits2_pos my)) in *.
    set (ax := Zpos (shl_align mx ex ez).1) in *.
    set (ay := Zpos (shl_align my ey ez).1) in *.
    assert (HDx : 1 <= Dx) by (subst Dx; lia). assert (HDy : 1 <= Dy) by (subst Dy; lia).
    assert (Hk : 0 <= B - ez) by lia.
    assert (Hax : 0 < ax < 2 ^ (B - ez)).
    { split; [subst ax; lia|]. rewrite Hvx.
      eapply Z.lt_le_trans; [apply Z.mul_lt_mono_pos_r; [apply Z.pow_pos_nonneg; lia | exact Hbx]|].
      rewrite <- Z.pow_add_r by lia. apply Z.pow_le_mono_r; lia. }
    assert (Hay : 0 < ay < 2 ^ (B - ez)).
    { split; [subst ay; lia|]. rewrite Hvy.
      eapply Z.lt_le_trans; [apply Z.mul_lt_mono_pos_r; [apply Z.pow_pos_nonneg; lia | exact Hby]|].
      rewrite <- Z.pow_add_r by lia. apply Z.pow_le_mono_r; lia. }
    assert (Hpow : 2 ^ (B - ez + 1) = 2 * 2 ^ (B - ez))
      by (rewrite Z.pow_add_r, Z.pow_1_r by lia; lia).
    set (M := cond_Zopp sx ax - cond_Zopp sy ay).
    assert (HM : Z.abs M < 2 ^ (B - ez + 1)).
    { subst M. unfold cond_Zopp. destruct sx, sy; lia. }
    assert (Zdigits2 M <= B - ez + 1); [|lia].
    destruct M as [|q|q]; cbn [Zdigits2]; [lia| |].
    + change (Zpos (digits2_pos q)) with (Zdigits2 (Zpos q)). apply Zdigits2_le; lia.
    + change (Zpos (digits2_pos q)) with (Zdigits2 (Zpos q)). apply Zdigits2_le; lia.
Qed.

Lemma SFmul_representable (x y : spec_float) (Bx By : Z) :
  representable prec emax Bx x -> representable prec emax By y ->
  emin + 1 <= Bx + By + 1 -> Bx + By + 1 <= emax ->
  representable prec emax (Bx + By + 1) (SFmul prec emax x y).
Proof.
  intros Hx Hy Hmin Hmax.
  destruct x as [sx| | |sx mx ex], y as [sy| | |sy my ey]; try done.
  cbn [SFmul]. cbn [representable] in Hx, Hy.
  destruct Hx as [Hex Hx], Hy as [Hey Hy].
  destruct (digits2_bounds mx) as [Hlx Hbx]. destruct (digits2_bounds my) as [Hly Hby].
  destruct (digits2_bounds (mx * my)) as [Hlp Hbp].
  set (Dx := Zpos (digits2_pos mx)) in *. set (Dy := Zpos (digits2_pos my)) in *.
  set (Dp := Zpos (digits2_pos (mx * my))) in *.
  assert (HDx : 1 <= Dx) by (subst Dx; lia). assert (HDy : 1 <= Dy) by (subst Dy; lia).
  rewrite Pos2Z.inj_mul in Hlp, Hbp.
  assert (Hp_hi : Dp <= Dx + Dy).
  { subst Dp. change (Zpos (digits2_pos (mx * my))) with (Zdigits2 (Zpos (mx * my))).
    apply Zdigits2_le; [lia|]. split; [lia|].
    rewrite Pos2Z.inj_mul, Z.pow_add_r by lia. nia. }
  assert (Hp_lo : Dx + Dy - 1 <= Dp).
  { subst Dp. change (Zpos (digits2_pos (mx * my))) with (Zdigits2 (Zpos (mx * my))).
    replace (Dx + Dy - 1) with ((Dx - 1) + (Dy - 1) + 1) by lia.
    apply Zdigits2_ge; [lia|].
    rewrite Pos2Z.inj_mul, Z.pow_add_r by lia.
    assert (0 < 2 ^ (Dx - 1)) by (apply Z.pow_pos_nonneg; lia).
    assert (0 < 2 ^ (Dy - 1)) by (apply Z.pow_pos_nonneg; lia). nia. }
  apply binary_round_aux_representable; fold Dp; [|lia|done..].
  unfold SpecFloat.fexp, SpecFloat.emin in *. lia.
Qed.
End Rounding.

(** ** The values that [detect] writes are finite *)

Lemma in_range_representable (B : Z) (x : float) :
  in_range B x = true -> representable 53 1024 B x.
Proof.
  destruct x as [s| | |s m e]; cbn [in_range representable]; try done.
  intros [Hvalid HB]%andb_true_iff. apply Z.leb_le in HB.
  unfold valid_binary, bounded, canonical_mantissa in Hvalid.
  apply andb_true_iff in Hvalid as [Hcan _]. apply Z.eqb_eq in Hcan. lia.
Qed.

Lemma float_one_representable : representable 53 1024 1 float_one.
Proof. vm_compute. split; discriminate. Qed.

Lemma float_of_int_representable (n k : Z) :
  0 <= k -> Z.abs n < 2 ^ k -> k + 1 <= 1024 ->
  exists w, float_of_int n = inr w /\ representable 53 1024 (k + 1) w.
Proof.
  intros Hk Hn Hmax. unfold float_of_int.
  assert (Hrep : representable 53 1024 (k + 1) (binary_normalize 53 1024 n 0 false)).
  { apply binary_normalize_representable; try done.
    - assert (Zdigits2 n <= k); [|lia].
      destruct n as [|p|p]; cbn [Zdigits2]; [lia| |];
        change (Zpos (digits2_pos p)) with (Zdigits2 (Zpos p)); apply Zdigits2_le; lia.
    - unfold emin. lia. }
  destruct (binary_normalize 53 1024 n 0 false) as [s| | |s m e]; try done; eauto.
Qed.

Lemma f32_of_float_finite (B : Z) (x : float) :
  representable 53 1024 B x -> -149 <= B -> B + 1 <= 128 ->
  is_finite (f32_of_float x) = true.
Proof.
  intros Hx Hmin Hmax. destruct x as [s| | |s m e]; try done.
  cbn [f32_of_float]. destruct Hx as [_ Hx].
  assert (Hrep : representable 24 128 (B + 1) (binary_round 24 128 s m e)).
  { apply binary_round_representable; try done; unfold emin; lia. }
  by destruct (binary_round 24 128 s m e).
Qed.

Lemma mirror_representable (v : float) :
  in_range 64 v = true -> representable 53 1024 66 (float_sub float_one v).
Proof.
  intros Hv%in_range_representable. unfold float_sub.
  apply (SFsub_representable 53 1024 eq_refl eq_refl _ _ 64); [|done..].
  apply (representable_mono 53 1024 1); [lia | apply float_one_representable].
Qed.

Lemma pxnorm_of_finite (lm : Landmark) :
  landmark_in_range lm = true -> vec3_finite (pxnorm_of lm) = true.
Proof.
  unfold landmark_in_range, vec3_finite, pxnorm_of.
  intros [[Hx Hy]%andb_true_iff Hz]%andb_true_iff. cbn [v3_x v3_y v3_z].
  rewrite (f32_of_float_finite 66 _ (mirror_representable _ Hx)) by lia.
  rewrite (f32_of_float_finite 66 _ (mirror_representable _ Hy)) by lia.
  rewrite (f32_of_float_finite 66 _ (mirror_representable _ Hz)) by lia.
  reflexivity.
Qed.

Lemma px_of_finite (w h : float) (lm : Landmark) :
  representable 53 1024 33 w -> representable 53 1024 33 h ->
  landmark_in_range lm = true -> vec2_finite (px_of w h lm) = true.
Proof.
  unfold landmark_in_range, vec2_finite, px_of.
  intros Hw Hh [[Hx Hy]%andb_true_iff Hz]%andb_true_iff. cbn [v2_x v2_y].
  assert (Hmul : forall a v, representable 53 1024 33 a -> in_range 64 v = true ->
             representable 53 1024 100 (float_mul a (float_sub float_one v))).
  { intros a v Ha Hv. unfold float_mul.
    apply (SFmul_representable 53 1024 eq_refl eq_refl _ _ 33 66); try done.
    by apply mirror_representable. }
  rewrite (f32_of_float_finite 100 _ (Hmul w _ Hw Hx)) by lia.
  rewrite (f32_of_float_finite 100 _ (Hmul h _ Hh Hy)) by lia.
  reflexivity.
Qed.

(** ** The shape of the arrays *)

Lemma nd_zeros_shape (n m : nat) : nd_shape n m (nd_zeros n m).
Proof.
  unfold nd_shape, nd_zeros; cbn [pxnorm px]. rewrite !length_replicate.
  repeat split; apply Forall_replicate, length_replicate.
Qed.

Lemma detect_np_shape (frame : option Frame) (s : MPFaceMesh) (n m : nat) :
  nd_shape n m (face_mesh_np s) -> nd_shape n m (face_mesh_np (r_self (detect frame s))).
Proof.
  intros Hs. destruct frame as [frame|]; [|done].
  rewrite detect_eq. unfold detect_run.
  destruct (face_mesh s frame) as [[|face faces]|]; try done.
  pose proof (write_all_shape (ctx_x s) (ctx_y s) (face_cmds 0 (face :: faces)) n m
                (face_mesh_np s) Hs) as Hshape.
  by destruct (write_all _ _ _ _) as [np' [[]|e]].
Qed.

Lemma call_np_shape (frame : option Frame) (s : MPFaceMesh) (n m : nat) :
  nd_shape n m (face_mesh_np s) -> nd_shape n m (face_mesh_np (r_self (__call__ frame s))).
Proof.
  intros Hs. unfold __call__, Updater_call.
  rewrite bind_run; cbn [gets r_out r_self r_calls app].
  rewrite bind_run; cbn [modify r_out r_self r_calls app].
  case_decide; [|done].
  rewrite bind_run.
  set (s1 := with_updater _ s).
  pose proof (detect_np_shape frame s1 n m Hs) as Hshape.
  by destruct (detect frame s1) as [[[]|e] s2 cs].
Qed.

Lemma reaches_np_shape (s0 s : MPFaceMesh) (n m : nat) :
  reaches s0 s -> nd_shape n m (face_mesh_np s0) -> nd_shape n m (face_mesh_np s).
Proof.
  intros Hr Hs0. induction Hr as [|s frame _ IH|s rt _ IH|s frame _ IH].
  - done.
  - by apply detect_np_shape.
  - by rewrite draw_self.
  - by apply call_np_shape.
Qed.

Lemma reachable_np_shape (s : MPFaceMesh) :
  reachable s -> nd_shape (max_num_faces (config s)) n_points (face_mesh_np s).
Proof.
  intros (topo & FM & x & y & st & kw & Hr).
  pose proof (reaches_wiring _ _ Hr) as (_ & _ & _ & _ & -> & _).
  apply (reaches_np_shape _ _ _ _ Hr). apply nd_zeros_shape.
Qed.

Lemma length_landmark_cmds (face : Face) : forall i j : nat,
  length (landmark_cmds i j face) = length face.
Proof. induction face as [|lm face IH]; intros i j; cbn; [done | by rewrite IH]. Qed.

Lemma length_face_cmds (faces : list Face) (m : nat) : forall i : nat,
  Forall (fun face => length face = m) faces ->
  length (face_cmds i faces) = (length faces * m)%nat.
Proof.
  induction faces as [|face faces IH]; intros i Hm; cbn [face_cmds length]; [done|].
  apply Forall_cons in Hm as [Hface Hm].
  rewrite length_app, length_landmark_cmds, IH by done. lia.
Qed.

Lemma face_cmds_cells (faces : list Face) (m i j : nat) :
  Forall (fun face => length face = m) faces ->
  (i, j) ∈ (face_cmds 0 faces).*1 <-> (i < length faces)%nat /\ (j < m)%nat.
Proof.
  intros Hm. rewrite Forall_lookup in Hm. split.
  - intros ([[i0 j0] lm] & [= -> ->] & Hin)%list_elem_of_fmap.
    apply elem_of_face_cmds in Hin as (_ & face & Hface & Hlm).
    rewrite Nat.sub_0_r in Hface. split; [by eapply lookup_lt_Some|].
    rewrite <- (Hm _ _ Hface). by eapply lookup_lt_Some.
  - intros [Hi Hj].
    destruct (lookup_lt_is_Some_2 faces i Hi) as [face Hface].
    destruct (lookup_lt_is_Some_2 face j) as [lm Hlm]; [by rewrite (Hm _ _ Hface)|].
    apply list_elem_of_fmap. exists (i, j, lm). split; [done|].
    apply elem_of_face_cmds. split; [lia|]. exists face. by rewrite Nat.sub_0_r.
Qed.

Lemma face_cmds_reported (faces : list Face) (i j : nat) :
  (i, j) ∈ (face_cmds 0 faces).*1 <-> is_Some (cell faces i j).
Proof.
  unfold cell. split.
  - intros ([[i0 j0] lm] & [= -> ->] & Hin)%list_elem_of_fmap.
    apply elem_of_face_cmds in Hin as (_ & face & Hface & Hlm).
    rewrite Nat.sub_0_r in Hface. unfold Face in *. rewrite Hface. by exists lm.
  - intros [lm Hlm]. unfold Face in *.
    destruct (faces !! i) as [face|] eqn:Hface; [|done]. cbn in Hlm.
    apply list_elem_of_fmap. exists (i, j, lm). split; [done|].
    apply elem_of_face_cmds. split; [lia|]. exists face. by rewrite Nat.sub_0_r.
Qed.

Lemma length_face_cmds_sum (faces : list Face) : forall i : nat,
  length (face_cmds i faces) = sum_list (length <$> faces).
Proof.
  induction faces as [|face faces IH]; intros i; cbn [face_cmds]; [done|].
  rewrite length_app, length_landmark_cmds, IH. reflexivity.
Qed.

(** C4. In a state reachable from a fresh instance whose context
    dimensions convert to floats, on a non-null frame for which the
    model reports [K] faces, [1 <= K <= max_faces], of at most 478
    landmarks each, [detect] returns and the detected-count is [K],
    whatever the coordinates are.  The loops visit each reported
    landmark's cell once and no other cell: as many cells as there are
    landmarks, the [K * 478] cells of the faces below [K] when every
    face has 478.  Each visited cell of either array holds the
    single-precision value of its landmark, the store agrees with the
    arrays, and every other cell of the arrays, the rows from [K] on
    among them, is as it was.  A written value is finite when the
    landmark's coordinates are finite doubles below [2 ^ 64] and, for
    the pixel-space value, the context's dimensions are below [2 ^ 32]
    in magnitude. *)
Theorem detect_faces (s : MPFaceMesh) (frame : Frame) (faces : list Face)
  (w h : float) :
  reachable s ->
  face_mesh s frame = Some faces ->
  (1 <= length faces <= max_num_faces (config s))%nat ->
  Z.of_nat (max_num_faces (config s)) <= i32_max ->
  Forall (fun face => (length face <= n_points)%nat) faces ->
  float_of_int (ctx_x s) = inr w -> float_of_int (ctx_y s) = inr h ->
  let r := detect (Some frame) s in
  r_out r = Returned tt /\
  detected (r_self r) = Z.of_nat (length faces) /\
  ctx_s_face_mesh (r_self r) = face_mesh_np (r_self r) /\
  NoDup (face_cmds 0 faces).*1 /\
  (forall i j, (i, j) ∈ (face_cmds 0 faces).*1 <-> is_Some (cell faces i j)) /\
  length (face_cmds 0 faces) = sum_list (length <$> faces) /\
  (Forall (fun face => length face = n_points) faces ->
     length (face_cmds 0 faces) = (length faces * 478)%nat /\
     forall i j, (i, j) ∈ (face_cmds 0 faces).*1 <->
                 (i < length faces)%nat /\ (j < 478)%nat) /\
  (forall i j lm, cell faces i j = Some lm ->
     cell (pxnorm (ctx_s_face_mesh (r_self r))) i j = Some (pxnorm_of lm) /\
     cell (px (ctx_s_face_mesh (r_self r))) i j = Some (px_of w h lm) /\
     (landmark_in_range lm = true -> vec3_finite (pxnorm_of lm) = true) /\
     (landmark_in_range lm = true ->
      Z.abs (ctx_x s) < 2 ^ 32 -> Z.abs (ctx_y s) < 2 ^ 32 ->
      vec2_finite (px_of w h lm) = true)) /\
  (forall i j, cell faces i j = None ->
     cell (pxnorm (face_mesh_np (r_self r))) i j = cell (pxnorm (face_mesh_np s)) i j /\
     cell (px (face_mesh_np (r_self r))) i j = cell (px (face_mesh_np s)) i j) /\
  (forall i, (length faces <= i)%nat ->
     pxnorm (face_mesh_np (r_self r)) !! i = pxnorm (face_mesh_np s) !! i /\
     px (face_mesh_np (r_self r)) !! i = px (face_mesh_np s) !! i).
Proof.
  intros Hreach Hres [HK1 HK] Hi32 Hlen Hw Hh r.
  pose proof (reachable_np_shape s Hreach) as Hshape.
  assert (Hok : (write_all (ctx_x s) (ctx_y s) (face_cmds 0 faces) (face_mesh_np s)).2
                = Returned tt).
  { apply (write_all_in_range _ _ w h (max_num_faces (config s)) n_points); try done.
    intros i j lm (_ & face & Hface & Hlm)%elem_of_face_cmds.
    rewrite Nat.sub_0_r in Hface. rewrite Forall_lookup in Hlen.
    pose proof (Hlen _ _ Hface) as Hm.
    apply lookup_lt_Some in Hface, Hlm. lia. }
  assert (Hne : faces <> []) by (intros ->; cbn in HK1; lia).
  assert (Hout : r_out r = Returned tt).
  { subst r. rewrite detect_eq. unfold detect_run. rewrite Hres.
    destruct faces as [|face faces']; [done|].
    by destruct (write_all _ _ _ _) as [np' [[]|e]]. }
  destruct (detect_Returned s frame faces Hres Hne Hout) as (np' & Hall & Hself).
  subst r. rewrite Hself.
  cbn [with_detected with_store with_np with_results detected ctx_s_face_mesh face_mesh_np].
  split; [done|]. split.
  { apply i32_id. unfold in_i32, i32_min, i32_max in *. lia. }
  split; [done|]. split; [apply NoDup_face_cmds|].
  split; [apply face_cmds_reported|].
  split; [apply length_face_cmds_sum|]. split.
  { intros Hfull. split; [by rewrite (length_face_cmds faces n_points)|].
    intros i j. by apply face_cmds_cells. }
  split; [|split].
  - intros i j lm Hcell.
    assert (Hin : (i, j, lm) ∈ face_cmds 0 faces).
    { unfold cell, Face in *. destruct (faces !! i) as [face|] eqn:Hface; [|done].
      apply elem_of_face_cmds. split; [lia|]. exists face. by rewrite Nat.sub_0_r. }
    destruct (write_all_written _ _ _ _ _ i j lm (NoDup_face_cmds faces 0) Hall Hin)
      as (w' & h' & Hw' & Hh' & Hc3 & Hc2).
    assert (w' = w) as -> by congruence. assert (h' = h) as -> by congruence.
    split; [done|]. split; [done|]. split; [apply pxnorm_of_finite|].
    intros Hlm Hx Hy.
    destruct (float_of_int_representable (ctx_x s) 32) as (w' & Hw'' & Hwrep);
      [lia|done|lia|].
    destruct (float_of_int_representable (ctx_y s) 32) as (h' & Hh'' & Hhrep);
      [lia|done|lia|].
    assert (w' = w) as -> by congruence. assert (h' = h) as -> by congruence.
    by apply px_of_finite.
  - intros i j Hnone.
    pose proof (write_all_other (ctx_x s) (ctx_y s) (face_cmds 0 faces)
                  (face_mesh_np s) i j) as Hother.
    rewrite Hall in Hother. apply Hother.
    intros Hin%face_cmds_reported. rewrite Hnone in Hin. by destruct Hin.
  - intros i Hi.
    pose proof (write_all_other_row (ctx_x s) (ctx_y s) (face_cmds 0 faces) i
                  (face_mesh_np s)) as Hrows.
    rewrite Hall in Hrows. apply Hrows.
    intros i0 j0 lm0 (_ & face0 & Hface0 & _)%elem_of_face_cmds ->.
    apply lookup_lt_Some in Hface0. lia.
Qed.

Lemma detect_faces_witness :
  reachable ex_odd /\
  face_mesh ex_odd frame1 = Some [replicate 468 (ex_lm 1)] /\
  r_out (detect (Some frame1) ex_odd) = Returned tt /\
  detected (r_self (detect (Some frame1) ex_odd)) = 1 /\
  length (face_cmds 0 [replicate 468 (ex_lm 1)]) = 468%nat /\
  cell (pxnorm (ctx_s_face_mesh (r_self (detect (Some frame1) ex_odd)))) 0 467
  = Some (pxnorm_of (ex_lm 1)).
Proof.
  assert (Hr : reachable ex_odd).
  { exists ex_topo, ex_FaceMesh_odd, 1920, 1080, (nd_zeros 1 478), ex_kwargs_default.
    apply reaches_here. }
  assert (Hres : face_mesh ex_odd frame1 = Some [replicate 468 (ex_lm 1)])
    by (vm_compute; reflexivity).
  assert (HK : (1 <= length [replicate 468 (ex_lm 1)] <= max_num_faces (config ex_odd))%nat)
    by (vm_compute; lia).
  assert (Hi32 : Z.of_nat (max_num_faces (config ex_odd)) <= i32_max)
    by (vm_compute; discriminate).
  assert (Hlen : Forall (fun face : Face => (length face <= n_points)%nat)
                   [replicate 468 (ex_lm 1)]).
  { apply Forall_cons_2; [|apply Forall_nil_2].
    rewrite length_replicate. unfold n_points. lia. }
  destruct (float_of_int (ctx_x ex_odd)) as [e|w] eqn:Hw;
    [vm_compute in Hw; discriminate|].
  destruct (float_of_int (ctx_y ex_odd)) as [e|h] eqn:Hh;
    [vm_compute in Hh; discriminate|].
  assert (Hcell : cell [replicate 468 (ex_lm 1)] 0 467 = Some (ex_lm 1))
    by (vm_compute; reflexivity).
  destruct (detect_faces ex_odd frame1 [replicate 468 (ex_lm 1)] w h
              Hr Hres HK Hi32 Hlen Hw Hh)
    as (Hout & Hdet & _ & _ & _ & Hsum & _ & Hval & _).
  destruct (Hval 0%nat 467%nat (ex_lm 1) Hcell) as (Hc3 & _).
  assert (H468 : sum_list (length <$> [replicate 468 (ex_lm 1)]) = 468%nat)
    by (vm_compute; reflexivity).
  rewrite H468 in Hsum.
  exact (conj Hr (conj Hres (conj Hout (conj Hdet (conj Hsum Hc3))))).
Defined.

(** C4 as stated fails in four ways.  A face of 468 landmarks, after one
    of 478: the detection returns and counts one face, but visits 468
    cells, not 478, and cell 468 keeps the earlier landmark.  A landmark
    far off the image: its pixel-space x overflows single precision.  An
    empty list of faces: the detected-count is -1, not 0.  A context
    width of [2 ^ 1024]: the detection raises [OverflowError] and the
    detected-count stays at 0. *)
Lemma detect_faces_counterexample :
  (let s := r_self (detect (Some frame2) ex_odd) in
   face_mesh s frame1 = Some [replicate 468 (ex_lm 1)] /\
   (1 <= max_num_faces (config s))%nat /\
   r_out (detect (Some frame1) s) = Returned tt /\
   detected (r_self (detect (Some frame1) s)) = 1 /\
   length (face_cmds 0 [replicate 468 (ex_lm 1)]) = 468%nat /\
   cell (pxnorm (ctx_s_face_mesh (r_self (detect (Some frame1) s)))) 0 467
     = Some (pxnorm_of (ex_lm 1)) /\
   cell (pxnorm (ctx_s_face_mesh (r_self (detect (Some frame1) s)))) 0 468
     = Some (pxnorm_of (ex_lm 2)) /\
   pxnorm_of (ex_lm 2) <> pxnorm_of (ex_lm 1)) /\
  (exists v, cell (px (ctx_s_face_mesh (r_self (detect (Some frame3) ex_odd)))) 0 0 = Some v /\
             is_finite (v2_x v) = false) /\
  (face_mesh ex_odd frame0 = Some [] /\
   detected (r_self (detect (Some frame0) ex_odd)) = -1) /\
  (let s := __init__ ex_topo ex_FaceMesh (2 ^ 1024) 1080 (nd_zeros 2 478) ex_kwargs in
   face_mesh s frame1 = Some [replicate 478 (ex_lm 0)] /\
   (1 <= max_num_faces (config s))%nat /\
   r_out (detect (Some frame1) s) = Raised OverflowError /\
   detected (r_self (detect (Some frame1) s)) = 0).
Proof.
  split; [|split; [|split]].
  - vm_compute. repeat split; try reflexivity; try lia; discriminate.
  - eexists. split; [vm_compute; reflexivity | reflexivity].
  - split; vm_compute; reflexivity.
  - vm_compute. repeat split; try reflexivity; lia.
Qed.

(** C5 as stated fails on the value: for a frame 1920 wide and a
    landmark at the single-precision 0.1, the cell holds 1728, while the
    product 1920 * (1 - x) is the double 1727.999997...: the cell read
    back as a float differs from the product. *)
Lemma detect_pixel_coordinates_counterexample :
  exists w v,
    float_of_int (ctx_x ex_tenth) = inr w /\
    cell (px (ctx_s_face_mesh (r_self (detect (Some frame1) ex_tenth)))) 0 0 = Some v /\
    float_of_f32 (v2_x v) <> float_mul w (float_sub float_one (fl 13421773 (-27))) /\
    v2_x v = f32_of_float (float_mul w (float_sub float_one (fl 13421773 (-27)))).
Proof.
  eexists _, _. split; [reflexivity|]. split; [vm_compute; reflexivity|].
  split; [vm_compute; discriminate | vm_compute; reflexivity].
Qed.

(** * Further properties of the methods *)

(** ** What [detect] and [draw] call and touch *)

(** X1. On a non-null frame [detect] calls the model exactly once, with
    that frame, and makes no call on the pixel surface, whether it
    returns or raises; the attribute [results] then holds the model's
    answer. *)
Theorem detect_calls_model_once (s : MPFaceMesh) (frame : Frame) :
  r_calls (detect (Some frame) s) = [Process frame] /\
  results (r_self (detect (Some frame) s)) = Some (face_mesh s frame).
Proof.
  rewrite detect_eq. unfold detect_run.
  destruct (face_mesh s frame) as [[|face faces]|]; try done.
  by destruct (write_all _ _ _ _) as [np' [[]|e]].
Qed.

(** X2. [draw] only reads: whatever the state and the runtime, it hands
    the instance back unchanged and never calls the model. *)
Theorem draw_read_only (rt : Runtime) (s : MPFaceMesh) :
  r_self (draw rt s) = s /\ count is_process (r_calls (draw rt s)) = 0%nat.
Proof.
  split; [apply draw_self|].
  destruct (self_px s) as [p|] eqn:Hpx; [|by rewrite draw_unbound].
  destruct (Z.le_gt_cases (detected s) 0) as [Hd|Hd].
  - by rewrite (draw_skips rt s p).
  - rewrite (draw_bound rt s p Hpx Hd). cbn [r_calls].
    by rewrite count_app, !(count_grid _ false).
Qed.

(** X3. As long as nothing binds the attribute [px], [draw] cannot
    run.  In every state that the methods of the class reach from a
    fresh instance, the fresh instance itself and the state after a
    detection without a face included, [draw] ends on the
    [AttributeError] without a single call, whatever the detected-count,
    and leaves the instance as it was. *)
Theorem draw_raises_while_px_unbound (rt : Runtime) (s : MPFaceMesh) :
  reachable s ->
  draw rt s = Run (Raised AttributeError) s [].
Proof. intros Hr. apply draw_unbound. by apply reachable_px_unbound. Qed.

Lemma draw_raises_while_px_unbound_witness :
  reachable ex_self /\ detected ex_self = 0 /\
  draw ex_rt ex_self = Run (Raised AttributeError) ex_self [] /\
  reachable (r_self (detect (Some frame0) ex_two)) /\
  detected (r_self (detect (Some frame0) ex_two)) = -1 /\
  draw ex_rt (r_self (detect (Some frame0) ex_two))
  = Run (Raised AttributeError) (r_self (detect (Some frame0) ex_two)) [].
Proof.
  assert (Hr : reachable ex_self).
  { exists ex_topo, ex_FaceMesh, 1920, 1080, (nd_zeros 2 478), ex_kwargs.
    apply reaches_here. }
  assert (Hr' : reachable (r_self (detect (Some frame0) ex_two))).
  { exists ex_topo, ex_FaceMesh, 1920, 1080, (nd_zeros 2 478), ex_kwargs.
    apply reaches_detect, reaches_detect, reaches_here. }
  assert (Hd : detected ex_self = 0) by (vm_compute; reflexivity).
  assert (Hd' : detected (r_self (detect (Some frame0) ex_two)) = -1)
    by (vm_compute; reflexivity).
  exact (conj Hr (conj Hd (conj (draw_raises_while_px_unbound ex_rt ex_self Hr)
           (conj Hr' (conj Hd' (draw_raises_while_px_unbound ex_rt _ Hr')))))).
Defined.

(** X4. What the constructor fixes stays fixed: in every state that
    [detect], [draw] and [__call__] lead to, the configuration, the
    context's dimensions, the model, [n_conns] and the binding of [px]
    are those of the starting state. *)
Theorem wiring_constant (s0 s : MPFaceMesh) :
  reaches s0 s ->
  config s = config s0 /\ ctx_x s = ctx_x s0 /\ ctx_y s = ctx_y s0 /\
  face_mesh s = face_mesh s0 /\ n_conns s = n_conns s0 /\ self_px s = self_px s0.
Proof. intros Hr. apply reaches_wiring in Hr. unfold same_wiring in Hr. tauto. Qed.

Lemma wiring_constant_witness :
  reaches ex_self (r_self (__call__ (Some frame1) ex_two)) /\
  config (r_self (__call__ (Some frame1) ex_two)) = config ex_self.
Proof.
  assert (Hr : reaches ex_self (r_self (__call__ (Some frame1) ex_two)))
    by apply reaches_call, reaches_detect, reaches_here.
  split; [exact Hr|]. apply (wiring_constant ex_self _ Hr).
Defined.

(** ** The shape of the arrays and of the fields *)

Lemma nd_fill_shape (v : f32) (st : nddict) (n m : nat) :
  nd_shape n m st -> nd_shape n m (nd_fill v st).
Proof.
  intros [[Hn3 Hm3] [Hn2 Hm2]]. unfold nd_shape, nd_fill; cbn [pxnorm px].
  rewrite !length_map. repeat split; try done.
  - apply List.Forall_map. eapply Forall_impl; [exact Hm3|].
    intros row Hrow. by rewrite length_map.
  - apply List.Forall_map. eapply Forall_impl; [exact Hm2|].
    intros row Hrow. by rewrite length_map.
Qed.

Lemma detect_store_shape (frame : option Frame) (s : MPFaceMesh) (n m : nat) :
  nd_shape n m (face_mesh_np s) -> nd_shape n m (ctx_s_face_mesh s) ->
  nd_shape n m (ctx_s_face_mesh (r_self (detect frame s))).
Proof.
  intros Hnp Hst. destruct frame as [frame|]; [|done].
  rewrite detect_eq. unfold detect_run.
  destruct (face_mesh s frame) as [[|face faces]|]; try by apply nd_fill_shape.
  pose proof (write_all_shape (ctx_x s) (ctx_y s) (face_cmds 0 (face :: faces)) n m
                (face_mesh_np s) Hnp) as Hshape.
  by destruct (write_all _ _ _ _) as [np' [[]|e]].
Qed.

Lemma call_store_shape (frame : option Frame) (s : MPFaceMesh) (n m : nat) :
  nd_shape n m (face_mesh_np s) -> nd_shape n m (ctx_s_face_mesh s) ->
  nd_shape n m (ctx_s_face_mesh (r_self (__call__ frame s))).
Proof.
  intros Hnp Hst. unfold __call__, Updater_call.
  rewrite bind_run; cbn [gets r_out r_self r_calls app].
  rewrite bind_run; cbn [modify r_out r_self r_calls app].
  case_decide; [|done].
  rewrite bind_run.
  set (s1 := with_updater _ s).
  pose proof (detect_store_shape frame s1 n m Hnp Hst) as Hshape.
  by destruct (detect frame s1) as [[[]|e] s2 cs].
Qed.

(** X5. The two stores keep their shape: when the context allocates the
    shared store with [max_num_faces] rows of 478 cells, the numpy
    arrays and the shared store have that shape in every state that the
    methods lead to, also after a detection that raised midway. *)
Theorem arrays_keep_shape (topo : Topology) (FaceMesh : Config -> Frame -> Detection)
  (x y : Z) (state : nddict) (kwargs : Kwargs) (s : MPFaceMesh) :
  nd_shape (default 1%nat (max_faces kwargs)) n_points state ->
  reaches (__init__ topo FaceMesh x y state kwargs) s ->
  nd_shape (default 1%nat (max_faces kwargs)) n_points (face_mesh_np s) /\
  nd_shape (default 1%nat (max_faces kwargs)) n_points (ctx_s_face_mesh s).
Proof.
  intros Hst Hr.
  induction Hr as [|s frame Hr [IHnp IHst]|s rt Hr IH|s frame Hr [IHnp IHst]].
  - split; [apply nd_zeros_shape | exact Hst].
  - split; [by apply detect_np_shape | by apply detect_store_shape].
  - by rewrite draw_self.
  - split; [by apply call_np_shape | by apply call_store_shape].
Qed.

Lemma arrays_keep_shape_witness :
  nd_shape 2 n_points (nd_zeros 2 478) /\
  nd_shape 2 n_points (ctx_s_face_mesh (r_self (detect (Some frame0) ex_two))).
Proof.
  assert (Hst : nd_shape (default 1%nat (max_faces ex_kwargs)) n_points (nd_zeros 2 478))
    by apply nd_zeros_shape.
  split; [exact Hst|].
  apply (arrays_keep_shape ex_topo ex_FaceMesh 1920 1080 (nd_zeros 2 478) ex_kwargs _ Hst).
  apply reaches_detect, reaches_detect, reaches_here.
Defined.

(** X6. Each connection field has exactly as many entries as the
    vendor's table it is built from, whatever the table holds, and
    [n_conns] is the number of entries of the contours field; this holds
    in every state that the methods lead to. *)
Theorem connection_fields_lengths (topo : Topology)
  (FaceMesh : Config -> Frame -> Detection) (x y : Z) (state : nddict)
  (kwargs : Kwargs) (s : MPFaceMesh) :
  reaches (__init__ topo FaceMesh x y state kwargs) s ->
  length (lips_conns (conns s)) = length (FACEMESH_LIPS topo) /\
  length (left_eye_conns (conns s)) = length (FACEMESH_LEFT_EYE topo) /\
  length (left_iris_conns (conns s)) = length (FACEMESH_LEFT_IRIS topo) /\
  length (left_eyebrow_conns (conns s)) = length (FACEMESH_LEFT_EYEBROW topo) /\
  length (right_eye_conns (conns s)) = length (FACEMESH_RIGHT_EYE topo) /\
  length (right_eyebrow_conns (conns s)) = length (FACEMESH_RIGHT_EYEBROW topo) /\
  length (right_iris_conns (conns s)) = length (FACEMESH_RIGHT_IRIS topo) /\
  length (face_oval_conns (conns s)) = length (FACEMESH_FACE_OVAL topo) /\
  length (nose_conns (conns s)) = length (FACEMESH_NOSE topo) /\
  length (contours_conns (conns s)) = length (FACEMESH_CONTOURS topo) /\
  n_conns s = length (contours_conns (conns s)).
Proof.
  intros Hr. apply reaches_wiring in Hr as (-> & _ & _ & _ & _ & _ & ->).
  cbn [__init__ conns n_conns setup_connections lips_conns left_eye_conns
       left_iris_conns left_eyebrow_conns right_eye_conns right_eyebrow_conns
       right_iris_conns face_oval_conns nose_conns contours_conns].
  rewrite !fill_by_index_eq, fill_by_enumerate_eq, !length_map. done.
Qed.

Lemma connection_fields_lengths_witness :
  reaches ex_self ex_two /\ n_conns ex_two = 3%nat /\
  length (contours_conns (conns ex_two)) = 3%nat.
Proof.
  assert (Hr : reaches ex_self ex_two) by apply reaches_detect, reaches_here.
  split; [exact Hr|].
  destruct (connection_fields_lengths ex_topo ex_FaceMesh 1920 1080 (nd_zeros 2 478)
              ex_kwargs ex_two Hr) as (_ & _ & _ & _ & _ & _ & _ & _ & _ & Hc & Hn).
  assert (Hlen : length (FACEMESH_CONTOURS ex_topo) = 3%nat) by reflexivity.
  rewrite Hlen in Hc. rewrite Hn, Hc. by split.
Defined.

(** ** Detections that raise *)

Lemma nd_set_out_of_range {A} (arr : list (list A)) (i j : nat) (v : A) (n m : nat) :
  length arr = n -> Forall (fun row => length row = m) arr ->
  (n <= i)%nat \/ (m <= j)%nat -> nd_set arr i j v = None.
Proof.
  intros Hn Hm Hout. unfold nd_set.
  destruct (arr !! i) as [row|] eqn:Hrow; [|done].
  rewrite Forall_lookup in Hm. pose proof (Hm _ _ Hrow) as Hlen.
  apply lookup_lt_Some in Hrow. rewrite decide_False; [done | lia].
Qed.

Lemma write_all_out_of_range (x y : Z) (w h : float) (n m : nat)
  (cs : list (nat * nat * Landmark)) :
  forall np : nddict,
  float_of_int x = inr w -> float_of_int y = inr h ->
  nd_shape n m np ->
  (exists i j lm, (i, j, lm) ∈ cs /\ ((n <= i)%nat \/ (m <= j)%nat)) ->
  (write_all x y cs np).2 = Raised IndexError /\
  nd_shape n m (write_all x y cs np).1.
Proof.
  intros np Hw Hh. revert np.
  induction cs as [|[[i0 j0] lm0] cs IH]; intros np Hnp (i & j & lm & Hin & Hout).
  - by apply elem_of_nil in Hin.
  - cbn [write_all].
    pose proof (write_landmark_shape x y (i0, j0, lm0) np n m Hnp) as Hshape.
    destruct Hnp as [[Hn3 Hm3] [Hn2 Hm2]].
    unfold write_landmark in *. rewrite Hw, Hh in *.
    destruct (decide ((i0 < n)%nat /\ (j0 < m)%nat)) as [[Hi0 Hj0]|Hc].
    + destruct (nd_set_in_range (pxnorm np) i0 j0 (pxnorm_of lm0) n m Hn3 Hm3 Hi0 Hj0)
        as [a Ha].
      destruct (nd_set_in_range (px np) i0 j0 (px_of w h lm0) n m Hn2 Hm2 Hi0 Hj0)
        as [b Hb].
      rewrite Ha, Hb in *. cbn [fst] in Hshape. apply IH; [done|].
      apply elem_of_cons in Hin as [[= -> -> ->]|Hin]; [lia|]. by exists i, j, lm.
    + rewrite (nd_set_out_of_range (pxnorm np) i0 j0 _ n m Hn3 Hm3) by lia. done.
Qed.

(** X7. A landmark outside the arrays stops the detection.  When the
    model reports a face beyond [max_faces], or a landmark beyond the
    478th of a face, [detect] raises [IndexError] after its one call on
    the model: the shared store and the detected-count stay as they
    were, and the arrays, written up to that landmark, keep their shape. *)
Theorem detect_out_of_shape (s : MPFaceMesh) (frame : Frame) (faces : list Face)
  (w h : float) (n i j : nat) (face : Face) (lm : Landmark) :
  face_mesh s frame = Some faces ->
  nd_shape n n_points (face_mesh_np s) ->
  float_of_int (ctx_x s) = inr w -> float_of_int (ctx_y s) = inr h ->
  faces !! i = Some face -> face !! j = Some lm ->
  (n <= i)%nat \/ (n_points <= j)%nat ->
  r_out (detect (Some frame) s) = Raised IndexError /\
  ctx_s_face_mesh (r_self (detect (Some frame) s)) = ctx_s_face_mesh s /\
  detected (r_self (detect (Some frame) s)) = detected s /\
  nd_shape n n_points (face_mesh_np (r_self (detect (Some frame) s))).
Proof.
  intros Hres Hnp Hw Hh Hface Hlm Hout.
  destruct (write_all_out_of_range (ctx_x s) (ctx_y s) w h n n_points
              (face_cmds 0 faces) (face_mesh_np s) Hw Hh Hnp) as [Hraise Hshape].
  { exists i, j, lm. split; [|done].
    apply elem_of_face_cmds. split; [lia|]. exists face. by rewrite Nat.sub_0_r. }
  rewrite detect_eq. unfold detect_run. rewrite Hres.
  destruct faces as [|face0 faces']; [done|].
  destruct (write_all _ _ _ _) as [np' o]. cbn [fst snd] in *. subst o. done.
Qed.

Lemma detect_out_of_shape_witness :
  r_out (detect (Some frame3) ex_two) = Raised IndexError /\
  detected (r_self (detect (Some frame3) ex_two)) = 2.
Proof.
  assert (Hnp : nd_shape 2 n_points (face_mesh_np ex_two)).
  { apply (reaches_np_shape ex_self); [apply reaches_detect, reaches_here|].
    apply nd_zeros_shape. }
  assert (Hres : face_mesh ex_two frame3
                 = Some [replicate 478 (ex_lm 0); replicate 478 (ex_lm 1);
                         replicate 478 (ex_lm 2)])
    by (vm_compute; reflexivity).
  assert (Hw : float_of_int (ctx_x ex_two) = inr (fl 1920 0)) by (vm_compute; reflexivity).
  assert (Hh : float_of_int (ctx_y ex_two) = inr (fl 1080 0)) by (vm_compute; reflexivity).
  assert (Hd : detected ex_two = 2) by (vm_compute; reflexivity).
  destruct (detect_out_of_shape ex_two frame3 _ (fl 1920 0) (fl 1080 0) 2 2 0
              (replicate 478 (ex_lm 2)) (ex_lm 2) Hres Hnp Hw Hh eq_refl eq_refl
              (or_introl (le_n 2))) as (Hout & _ & Hdet & _).
  split; [exact Hout | rewrite Hdet; exact Hd].
Defined.

Lemma write_all_overflow (x y : Z) (c : nat * nat * Landmark)
  (cs : list (nat * nat * Landmark)) (np : nddict) :
  float_of_int x = inl OverflowError \/ float_of_int y = inl OverflowError ->
  write_all x y (c :: cs) np = (np, Raised OverflowError).
Proof.
  intros Hov. destruct c as [[i j] lm]. cbn [write_all]. unfold write_landmark.
  destruct (float_of_int x) as [e|w] eqn:Hx.
  - assert (e = OverflowError) as ->; [|done].
    unfold float_of_int in Hx. destruct (binary_normalize 53 1024 x 0 false); congruence.
  - destruct Hov as [|Hy]; [done|]. by rewrite Hy.
Qed.

(** X8. A context dimension too large for a float stops the detection
    at the first landmark: [detect] raises [OverflowError] before any
    cell is written, so the arrays, the shared store and the
    detected-count are all as before. *)
Theorem detect_dimension_overflow (s : MPFaceMesh) (frame : Frame) (faces : list Face)
  (i : nat) (face : Face) (lm : Landmark) :
  face_mesh s frame = Some faces ->
  faces !! i = Some face -> face !! 0%nat = Some lm ->
  float_of_int (ctx_x s) = inl OverflowError \/
  float_of_int (ctx_y s) = inl OverflowError ->
  r_out (detect (Some frame) s) = Raised OverflowError /\
  face_mesh_np (r_self (detect (Some frame) s)) = face_mesh_np s /\
  ctx_s_face_mesh (r_self (detect (Some frame) s)) = ctx_s_face_mesh s /\
  detected (r_self (detect (Some frame) s)) = detected s.
Proof.
  intros Hres Hface Hlm Hov.
  assert (Hcs : exists c cs, face_cmds 0 faces = c :: cs).
  { destruct (face_cmds 0 faces) as [|c cs] eqn:Hcmds; [|by eauto].
    assert (Hin : (i, 0%nat, lm) ∈ face_cmds 0 faces).
    { apply elem_of_face_cmds. split; [lia|]. exists face. by rewrite Nat.sub_0_r. }
    rewrite Hcmds in Hin. by apply elem_of_nil in Hin. }
  destruct Hcs as (c & cs & Hcs).
  rewrite detect_eq. unfold detect_run. rewrite Hres.
  destruct faces as [|face0 faces']; [done|].
  rewrite Hcs, (write_all_overflow _ _ c cs _ Hov).
  cbn [r_out r_self with_np with_results face_mesh_np ctx_s_face_mesh detected].
  done.
Qed.

Lemma detect_dimension_overflow_witness :
  let s := __init__ ex_topo ex_FaceMesh (2 ^ 1024) 1080 (nd_zeros 2 478) ex_kwargs in
  r_out (detect (Some frame1) s) = Raised OverflowError /\
  face_mesh_np (r_self (detect (Some frame1) s)) = face_mesh_np s.
Proof.
  intros s.
  assert (Hres : face_mesh s frame1 = Some [replicate 478 (ex_lm 0)])
    by (vm_compute; reflexivity).
  assert (Hov : float_of_int (ctx_x s) = inl OverflowError \/
                float_of_int (ctx_y s) = inl OverflowError)
    by (left; vm_compute; reflexivity).
  destruct (detect_dimension_overflow s frame1 _ 0 (replicate 478 (ex_lm 0)) (ex_lm 0)
              Hres eq_refl eq_refl Hov) as (Hout & Hnp & _).
  split; [exact Hout | exact Hnp].
Defined.

(** ** Stale rows come back *)

Lemma detect_no_face_np (s : MPFaceMesh) (frame : Frame) :
  face_mesh s frame = None \/ face_mesh s frame = Some [] ->
  face_mesh_np (r_self (detect (Some frame) s)) = face_mesh_np s /\
  ctx_s_face_mesh (r_self (detect (Some frame) s)) = nd_fill f32_zero (ctx_s_face_mesh s).
Proof.
  intros Hres. rewrite detect_eq. unfold detect_run. by destruct Hres as [-> | ->].
Qed.

(** X9. Zeroing the shared store does not clear the numpy arrays.  After
    a detection of [K'] faces, then a frame without a face, then a
    detection of [K < K'] faces, the store's rows [K .. K'-1] hold the
    faces of the first detection again, although the frame in between
    had set them to zero. *)
Theorem detect_revives_stale_faces (s : MPFaceMesh) (frame' frame0 frame : Frame)
  (faces' faces : list Face) (i : nat) :
  face_mesh s frame' = Some faces' ->
  face_mesh s frame0 = None \/ face_mesh s frame0 = Some [] ->
  face_mesh s frame = Some faces ->
  (0 < length faces <= i)%nat -> (i < length faces')%nat ->
  let s1 := r_self (detect (Some frame') s) in
  let s2 := r_self (detect (Some frame0) s1) in
  let s3 := r_self (detect (Some frame) s2) in
  r_out (detect (Some frame') s) = Returned tt ->
  r_out (detect (Some frame) s2) = Returned tt ->
  ctx_s_face_mesh s2 = nd_fill f32_zero (ctx_s_face_mesh s1) /\
  pxnorm (ctx_s_face_mesh s3) !! i = pxnorm (ctx_s_face_mesh s1) !! i /\
  px (ctx_s_face_mesh s3) !! i = px (ctx_s_face_mesh s1) !! i.
Proof.
  intros Hres' Hres0 Hres [HK Hi] Hi' s1 s2 s3 Hout' Hout.
  assert (Hne' : faces' <> []) by (intros ->; cbn in Hi'; lia).
  assert (Hne : faces <> []) by (intros ->; cbn in HK; lia).
  destruct (detect_Returned s frame' faces' Hres' Hne' Hout') as (np1 & _ & Hs1).
  assert (Hfm1 : face_mesh s1 = face_mesh s) by apply (detect_wiring (Some frame') s).
  assert (Hfm2 : face_mesh s2 = face_mesh s).
  { transitivity (face_mesh s1); [apply (detect_wiring (Some frame0) s1) | done]. }
  assert (Hres0' : face_mesh s1 frame0 = None \/ face_mesh s1 frame0 = Some [])
    by (by rewrite Hfm1).
  destruct (detect_no_face_np s1 frame0 Hres0') as [Hnp2 Hst2]. fold s2 in Hnp2, Hst2.
  split; [exact Hst2|].
  assert (Hres2 : face_mesh s2 frame = Some faces) by (by rewrite Hfm2).
  destruct (detect_Returned s2 frame faces Hres2 Hne Hout) as (np3 & Hall & Hs3).
  pose proof (write_all_other_row (ctx_x s2) (ctx_y s2) (face_cmds 0 faces) i
                (face_mesh_np s2)) as Hrows.
  rewrite Hall in Hrows. cbn [fst] in Hrows.
  subst s3. rewrite Hs3. cbn [with_detected with_store ctx_s_face_mesh].
  rewrite Hnp2 in Hrows. subst s1. rewrite Hs1 in Hrows |- *.
  cbn [with_detected with_store with_np face_mesh_np ctx_s_face_mesh] in Hrows |- *.
  apply Hrows.
  intros i0 j0 lm0 (_ & face0 & Hface0 & _)%elem_of_face_cmds ->.
  apply lookup_lt_Some in Hface0. lia.
Qed.

Lemma detect_revives_stale_faces_witness :
  let s1 := r_self (detect (Some frame2) ex_self) in
  let s2 := r_self (detect (Some frame0) s1) in
  let s3 := r_self (detect (Some frame1) s2) in
  cell (px (ctx_s_face_mesh s2)) 1 477 = Some vec2_zero /\
  px (ctx_s_face_mesh s3) !! 1%nat = px (ctx_s_face_mesh s1) !! 1%nat /\
  cell (px (ctx_s_face_mesh s3)) 1 477
    = Some (Vec2 (S754_finite false 11796480 (-13)) (S754_finite false 8847360 (-14))).
Proof.
  intros s1 s2 s3.
  assert (Hres' : face_mesh ex_self frame2
                  = Some [replicate 478 (ex_lm 0); replicate 478 (ex_lm 1)])
    by (vm_compute; reflexivity).
  assert (Hres0 : face_mesh ex_self frame0 = None \/ face_mesh ex_self frame0 = Some [])
    by (left; vm_compute; reflexivity).
  assert (Hres : face_mesh ex_self frame1 = Some [replicate 478 (ex_lm 0)])
    by (vm_compute; reflexivity).
  assert (Hout' : r_out (detect (Some frame2) ex_self) = Returned tt)
    by (vm_compute; reflexivity).
  assert (Hout : r_out (detect (Some frame1) s2) = Returned tt)
    by (vm_compute; reflexivity).
  destruct (detect_revives_stale_faces ex_self frame2 frame0 frame1 _ _ 1
              Hres' Hres0 Hres (conj (le_n 1) (le_n 1)) (le_n 2) Hout' Hout)
    as (_ & _ & Hpx).
  split; [vm_compute; reflexivity|]. split; [exact Hpx|].
  vm_compute. reflexivity.
Defined.

(** ** The calls of [draw], one by one *)

Lemma row_calls (m : nat) (f : nat -> call) : forall k : nat,
  concat (map (fun j => [f j]) (seq k m)) = map f (seq k m).
Proof. induction m as [|m IH]; intros k; cbn; [done | by rewrite IH]. Qed.

Lemma grid_calls_lookup (n m : nat) (c : nat -> nat -> call) (i j : nat) :
  (i < n)%nat -> (j < m)%nat -> grid_calls n m c !! (i * m + j)%nat = Some (c i j).
Proof.
  unfold grid_calls. intros Hi Hj.
  assert (Hgen : forall n k i, (i < n)%nat ->
            concat (map (fun i => concat (map (fun j => [c i j]) (seq 0 m))) (seq k n))
              !! (i * m + j)%nat = Some (c (k + i)%nat j)).
  { clear n i Hi. induction n as [|n IH]; intros k i Hi; [lia|].
    cbn [seq map concat]. rewrite row_calls.
    destruct i as [|i].
    - rewrite lookup_app_l by (rewrite length_map, length_seq; lia).
      cbn [Nat.mul Nat.add]. rewrite Nat.add_0_r.
      change (map (c k) (seq 0 m)) with (c k <$> seq 0 m).
      by rewrite list_lookup_fmap, lookup_seq_lt.
    - rewrite lookup_app_r by (rewrite length_map, length_seq; cbn; lia).
      rewrite length_map, length_seq.
      replace (S i * m + j - m)%nat with (i * m + j)%nat by (cbn; lia).
      rewrite IH by lia. do 2 f_equal. lia. }
  by rewrite Hgen.
Qed.

Lemma length_grid_calls (n m : nat) (c : nat -> nat -> call) :
  length (grid_calls n m c) = (n * m)%nat.
Proof.
  unfold grid_calls. generalize 0%nat at 2.
  induction n as [|n IH]; intros k; cbn [seq map concat]; [done|].
  rewrite length_app, IH, row_calls, length_map, length_seq. lia.
Qed.

Lemma read_px_cell (rt : Runtime) (st : nddict) (i j : nat) (v : vec2) :
  cell (px st) i j = Some v -> read_px rt st (Z.of_nat i) (Z.of_nat j) = v.
Proof.
  unfold cell, read_px. intros Hv.
  replace (Z.of_nat i <? 0) with false by (symmetry; apply Z.ltb_ge; lia).
  replace (Z.of_nat j <? 0) with false by (symmetry; apply Z.ltb_ge; lia).
  cbn [orb]. by rewrite !Nat2Z.id, Hv.
Qed.

Lemma draw_bound_circle (rt : Runtime) (s : MPFaceMesh) (p : Pixels)
  (i j : nat) (v : vec2) :
  self_px s = Some p ->
  Z.of_nat i < detected s -> (j < 478)%nat ->
  cell (px (ctx_s_face_mesh s)) i j = Some v ->
  r_calls (draw rt s) !! (i * 478 + j)%nat
  = Some (Circle (i32_of_f32 (v2_x v)) (i32_of_f32 (v2_y v)) 5 [1; 1; 1; 1]).
Proof.
  intros Hpx Hi Hj Hv.
  rewrite (draw_bound rt s p Hpx) by lia. cbn [r_calls].
  rewrite lookup_app_l by (rewrite length_grid_calls; unfold n_points; nia).
  unfold n_points. rewrite grid_calls_lookup by lia.
  unfold circle_of. by rewrite (read_px_cell rt _ i j v Hv).
Qed.

(** X10. With the surface bound, the call number [i * 478 + j] of
    [draw], for a face [i] below the detected-count and a landmark
    [j < 478], is the circle of radius 5 and colour [1, 1, 1, 1] at the
    pixel-space cell [(i, j)] of the shared store, each coordinate
    truncated to an integer. *)
Theorem draw_circle_at (rt : Runtime) (s : MPFaceMesh) (p : Pixels)
  (i j : nat) (v : vec2) :
  self_px s = Some p ->
  Z.of_nat i < detected s -> (j < 478)%nat ->
  cell (px (ctx_s_face_mesh s)) i j = Some v ->
  r_calls (draw rt s) !! (i * 478 + j)%nat
  = Some (Circle (i32_of_f32 (v2_x v)) (i32_of_f32 (v2_y v)) 5 [1; 1; 1; 1]).
Proof. apply draw_bound_circle. Qed.

Lemma draw_circle_at_witness :
  r_calls (draw ex_rt (with_px ctx_px ex_two)) !! (1 * 478 + 477)%nat
  = Some (Circle 1440 540 5 [1; 1; 1; 1]).
Proof.
  assert (Hpx : self_px (with_px ctx_px ex_two) = Some ctx_px) by (vm_compute; reflexivity).
  assert (Hi : Z.of_nat 1 < detected (with_px ctx_px ex_two)) by (vm_compute; reflexivity).
  assert (Hv : cell (px (ctx_s_face_mesh (with_px ctx_px ex_two))) 1 477
               = Some (Vec2 (S754_finite false 11796480 (-13))
                            (S754_finite false 8847360 (-14))))
    by (vm_compute; reflexivity).
  rewrite (draw_circle_at ex_rt _ ctx_px 1 477 _ Hpx Hi ltac:(lia) Hv).
  vm_compute. reflexivity.
Defined.

Lemma grid_calls_ext (n m : nat) (c c' : nat -> nat -> call) :
  (forall i j, (i < n)%nat -> (j < m)%nat -> c i j = c' i j) ->
  grid_calls n m c = grid_calls n m c'.
Proof.
  intros Hc. unfold grid_calls. f_equal.
  apply List.map_ext_in. intros i Hi%List.in_seq. f_equal.
  apply List.map_ext_in. intros j Hj%List.in_seq. f_equal. apply Hc; lia.
Qed.

Lemma take_grid_first_row (n m k : nat) (c : nat -> nat -> call) :
  (0 < n)%nat -> (k <= m)%nat ->
  take k (grid_calls n m c) = map (c 0%nat) (seq 0 k).
Proof.
  intros Hn Hk. unfold grid_calls. destruct n as [|n]; [lia|].
  cbn [seq map concat]. rewrite row_calls.
  rewrite take_app_le by (rewrite length_map, length_seq; lia).
  change (map (c 0%nat) (seq 0 m)) with (c 0%nat <$> seq 0 m).
  by rewrite <- fmap_take, take_seq, Nat.min_l by lia.
Qed.

Lemma shape_cell_px (n m : nat) (d : nddict) (i j : nat) :
  nd_shape n m d -> (i < n)%nat -> (j < m)%nat -> is_Some (cell (px d) i j).
Proof.
  intros [_ [Hn Hm]] Hi Hj. unfold cell.
  destruct (lookup_lt_is_Some_2 (px d) i) as [row Hrow]; [lia|].
  rewrite Hrow. cbn. apply lookup_lt_is_Some_2.
  by rewrite (Forall_lookup_1 _ _ _ _ Hm Hrow).
Qed.

Lemma circle_of_cell (rt : Runtime) (s : MPFaceMesh) (r : Z) (rgba : list Z)
  (i j : nat) (v : vec2) :
  cell (px (ctx_s_face_mesh s)) i j = Some v ->
  circle_of rt s r rgba i j
  = Circle (i32_of_f32 (v2_x v)) (i32_of_f32 (v2_y v)) r rgba.
Proof. intros Hv. unfold circle_of. by rewrite (read_px_cell rt _ i j v Hv). Qed.

Lemma line_of_cells (rt : Runtime) (s : MPFaceMesh) (rgba : list Z)
  (i j : nat) (c : FaceMeshConnection) (va vb : vec2) :
  contours_conns (conns s) !! j = Some c ->
  0 <= c_a c -> 0 <= c_b c ->
  cell (px (ctx_s_face_mesh s)) i (Z.to_nat (c_a c)) = Some va ->
  cell (px (ctx_s_face_mesh s)) i (Z.to_nat (c_b c)) = Some vb ->
  line_of rt s rgba i j
  = Line (i32_of_f32 (v2_x va)) (i32_of_f32 (v2_y va))
         (i32_of_f32 (v2_x vb)) (i32_of_f32 (v2_y vb)) rgba.
Proof.
  intros Hc Ha Hb Hva Hvb. unfold line_of, read_conn. cbv zeta.
  replace (Z.of_nat j <? 0) with false by (symmetry; apply Z.ltb_ge; lia).
  rewrite Nat2Z.id, Hc. cbn [from_option id].
  rewrite <- (Z2Nat.id (c_a c)) at 1 2 by done.
  rewrite <- (Z2Nat.id (c_b c)) at 1 2 by done.
  by rewrite (read_px_cell rt _ i _ va Hva), (read_px_cell rt _ i _ vb Hvb).
Qed.

(** X11. The lines of the first face.  Take the surface bound, a
    detected-count [K > 0] that the shared store has rows for, and an
    index [j] such that the entries [0 .. j] of the contours table exist
    and name landmarks below 478.  Then the call number [K * 478 + j] of
    [draw] is the line between the pixel-space cells, in row 0 of the
    store, of the two landmarks that entry [j] names, each coordinate
    truncated to an integer.  Up to and including that call nothing was
    read outside a field: the calls are the same for every runtime. *)
Theorem draw_line_at (rt : Runtime) (s : MPFaceMesh) (p : Pixels)
  (n j : nat) (c : FaceMeshConnection) :
  self_px s = Some p ->
  0 < detected s <= Z.of_nat n ->
  nd_shape n n_points (ctx_s_face_mesh s) ->
  (j < 478)%nat ->
  contours_conns (conns s) !! j = Some c ->
  (forall k ck, (k <= j)%nat -> contours_conns (conns s) !! k = Some ck ->
     0 <= c_a ck < 478 /\ 0 <= c_b ck < 478) ->
  exists va vb : vec2,
    cell (px (ctx_s_face_mesh s)) 0 (Z.to_nat (c_a c)) = Some va /\
    cell (px (ctx_s_face_mesh s)) 0 (Z.to_nat (c_b c)) = Some vb /\
    r_calls (draw rt s) !! (Z.to_nat (detected s) * 478 + j)%nat
    = Some (Line (i32_of_f32 (v2_x va)) (i32_of_f32 (v2_y va))
                 (i32_of_f32 (v2_x vb)) (i32_of_f32 (v2_y vb)) [1; 1; 1; 1]) /\
    forall rt' : Runtime,
      take (Z.to_nat (detected s) * 478 + S j) (r_calls (draw rt' s))
      = take (Z.to_nat (detected s) * 478 + S j) (r_calls (draw rt s)).
Proof.
  intros Hpx [Hd Hn] Hsh Hj Hc Hin.
  assert (Hcells : forall k ck, (k <= j)%nat ->
            contours_conns (conns s) !! k = Some ck ->
            exists va vb,
              cell (px (ctx_s_face_mesh s)) 0 (Z.to_nat (c_a ck)) = Some va /\
              cell (px (ctx_s_face_mesh s)) 0 (Z.to_nat (c_b ck)) = Some vb /\
              forall rt0, line_of rt0 s [1; 1; 1; 1] 0 k
                = Line (i32_of_f32 (v2_x va)) (i32_of_f32 (v2_y va))
                       (i32_of_f32 (v2_x vb)) (i32_of_f32 (v2_y vb)) [1; 1; 1; 1]).
  { intros k ck Hk Hck. destruct (Hin k ck Hk Hck) as [Ha Hb].
    destruct (shape_cell_px n n_points _ 0 (Z.to_nat (c_a ck)) Hsh) as [va Hva];
      [lia | unfold n_points; lia |].
    destruct (shape_cell_px n n_points _ 0 (Z.to_nat (c_b ck)) Hsh) as [vb Hvb];
      [lia | unfold n_points; lia |].
    exists va, vb. repeat split; [done..|].
    intros rt0. apply (line_of_cells rt0 s _ 0 k ck va vb); [done|lia|lia|done..]. }
  destruct (Hcells j c (Nat.le_refl j) Hc) as (va & vb & Hva & Hvb & Hline).
  exists va, vb. split; [done|]. split; [done|]. split.
  - rewrite (draw_bound rt s p Hpx) by lia. cbn [r_calls].
    rewrite lookup_app_r by (rewrite length_grid_calls; unfold n_points; lia).
    rewrite length_grid_calls. unfold n_points.
    replace (Z.to_nat (detected s) * 478 + j - Z.to_nat (detected s) * 478)%nat
      with (0 * 478 + j)%nat by lia.
    rewrite grid_calls_lookup by lia. by rewrite Hline.
  - intros rt'. rewrite !(draw_bound _ s p Hpx) by lia. cbn [r_calls].
    rewrite !(take_app_add' _ _ (Z.to_nat (detected s) * 478))
      by (rewrite length_grid_calls; unfold n_points; lia).
    f_equal.
    + apply grid_calls_ext. intros i k Hi Hk.
      destruct (shape_cell_px n n_points _ i k Hsh) as [v Hv]; [lia|done|].
      by rewrite !(circle_of_cell _ s 5 _ i k v Hv).
    + rewrite !take_grid_first_row by (unfold n_points; lia).
      apply List.map_ext_in. intros k Hk%List.in_seq.
      destruct (lookup_lt_is_Some_2 (contours_conns (conns s)) k) as [ck Hck].
      { apply lookup_lt_Some in Hc. lia. }
      destruct (Hcells k ck) as (wa & wb & _ & _ & Hk'); [lia|done|].
      by rewrite !Hk'.
Qed.

Lemma draw_line_at_witness :
  r_calls (draw ex_rt (with_px ctx_px ex_two)) !! (2 * 478 + 2)%nat
  = Some (Line 1920 540 1920 540 [1; 1; 1; 1]).
Proof.
  assert (Hpx : self_px (with_px ctx_px ex_two) = Some ctx_px) by (vm_compute; reflexivity).
  assert (Hd : 0 < detected (with_px ctx_px ex_two) <= Z.of_nat 2) by (vm_compute; split; [reflexivity | discriminate]).
  assert (Hsh : nd_shape 2 n_points (ctx_s_face_mesh (with_px ctx_px ex_two))).
  { assert (Hst : forall s, ctx_s_face_mesh (with_px ctx_px s) = ctx_s_face_mesh s)
      by reflexivity.
    rewrite Hst. unfold ex_two.
    apply (detect_store_shape (Some frame2) ex_self 2 n_points); apply nd_zeros_shape. }
  assert (Htab : contours_conns (conns (with_px ctx_px ex_two))
                 = [Conn 61 146; Conn 146 91; Conn 263 249]) by (vm_compute; reflexivity).
  assert (Hc : contours_conns (conns (with_px ctx_px ex_two)) !! 2%nat = Some (Conn 263 249))
    by (by rewrite Htab).
  assert (Hin : forall k ck, (k <= 2)%nat ->
            contours_conns (conns (with_px ctx_px ex_two)) !! k = Some ck ->
            0 <= c_a ck < 478 /\ 0 <= c_b ck < 478).
  { rewrite Htab. intros [|[|[|k]]] ck Hk Hck; [| | |lia];
      injection Hck as <-; cbn; lia. }
  assert (HK : Z.to_nat (detected (with_px ctx_px ex_two)) = 2%nat)
    by (vm_compute; reflexivity).
  assert (Hva : cell (px (ctx_s_face_mesh (with_px ctx_px ex_two))) 0 (Z.to_nat 263)
               = Some (Vec2 (S754_finite false 15728640 (-13))
                            (S754_finite false 8847360 (-14))))
    by (vm_compute; reflexivity).
  assert (Hvb : cell (px (ctx_s_face_mesh (with_px ctx_px ex_two))) 0 (Z.to_nat 249)
               = Some (Vec2 (S754_finite false 15728640 (-13))
                            (S754_finite false 8847360 (-14))))
    by (vm_compute; reflexivity).
  destruct (draw_line_at ex_rt _ ctx_px 2 2 (Conn 263 249) Hpx Hd Hsh ltac:(lia) Hc Hin)
    as (va & vb & Hva' & Hvb' & Hline & _).
  cbn [c_a c_b] in Hva', Hvb'. rewrite Hva in Hva'. rewrite Hvb in Hvb'.
  injection Hva' as <-. injection Hvb' as <-.
  rewrite HK in Hline. rewrite Hline. vm_compute. reflexivity.
Defined.

(** ** Landmarks inside the image are drawn inside the frame *)

(** *** Rounding never passes an integer bound *)

Lemma divide_pow2_split (m a b : Z) :
  0 <= a -> 0 <= b ->
  (2 ^ (a + b) | m) -> (2 ^ a | m) /\ (2 ^ b | m / 2 ^ a).
Proof.
  intros Ha Hb [k Hk]. rewrite Z.pow_add_r in Hk by lia.
  assert (0 < 2 ^ a) by (by apply Z.pow_pos_nonneg).
  split.
  - exists (k * 2 ^ b). lia.
  - exists k. replace m with (k * 2 ^ b * 2 ^ a) by lia. by rewrite Z.div_mul by lia.
Qed.

Lemma shifted_1 (mrs : shr_record) : shifted 1 mrs (shr_1 mrs).
Proof.
  intros Hm. split; [by rewrite shr_1_m, Z.pow_1_r|].
  rewrite Z.pow_1_r. destruct mrs as [m r s]; unfold sticky; cbn [shr_m shr_r shr_s] in *.
  destruct m as [|[q|q|]|q]; cbn [shr_1 shr_m shr_r shr_s]; try lia.
  - rewrite orb_false_l. by right.
  - intros _. left. intros [k Hk]. lia.
  - rewrite orb_false_l. by right.
  - intros _. left. intros [k Hk]. lia.
Qed.

Lemma shifted_trans (a b : Z) (x y z : shr_record) :
  0 <= a -> 0 <= b -> shifted a x y -> shifted b y z -> shifted (a + b) x z.
Proof.
  intros Ha Hb Hxy Hyz Hx. destruct (Hxy Hx) as [Hmy Hsy].
  assert (Hy : 0 <= shr_m y).
  { rewrite Hmy. apply Z.div_pos; [done | by apply Z.pow_pos_nonneg]. }
  destruct (Hyz Hy) as [Hmz Hsz]. split.
  - assert (0 < 2 ^ a) by (by apply Z.pow_pos_nonneg).
    assert (0 < 2 ^ b) by (by apply Z.pow_pos_nonneg).
    by rewrite Hmz, Hmy, Z.div_div, Z.pow_add_r by lia.
  - intros Hs. destruct (Hsz Hs) as [Hdiv|Hs'].
    + left. intros [_ Hd]%divide_pow2_split; [|done..]. apply Hdiv. by rewrite Hmy.
    + destruct (Hsy Hs') as [Hdiv|Hs'']; [|by right].
      left. by intros [Hd _]%divide_pow2_split.
Qed.

Lemma shifted_iter (p : positive) : forall mrs : shr_record,
  shifted (Zpos p) mrs (SpecFloat.iter_pos shr_1 p mrs).
Proof.
  induction p as [p IH|p IH|]; intros mrs; cbn [SpecFloat.iter_pos].
  - replace (Zpos p~1) with (1 + Zpos p + Zpos p) by lia.
    apply (shifted_trans _ _ _ (SpecFloat.iter_pos shr_1 p (shr_1 mrs))); try lia; [|apply IH].
    apply (shifted_trans _ _ _ (shr_1 mrs)); try lia; [apply shifted_1 | apply IH].
  - replace (Zpos p~0) with (Zpos p + Zpos p) by lia.
    apply (shifted_trans _ _ _ (SpecFloat.iter_pos shr_1 p mrs)); try lia; apply IH.
  - apply shifted_1.
Qed.

Lemma shr_fexp_sticky (prec emax m e : Z) :
  0 <= m ->
  sticky (shr_fexp prec emax m e loc_Exact).1 = true ->
  ~ (2 ^ (Z.max e (fexp prec emax (Zdigits2 m + e)) - e) | m).
Proof.
  intros Hm. unfold shr_fexp, shr.
  destruct (fexp prec emax (Zdigits2 m + e) - e) as [|p|p] eqn:Hn; cbn [fst];
    try (unfold sticky; cbn; discriminate).
  intros Hs. destruct (shifted_iter p (shr_record_of_loc m loc_Exact) Hm) as [_ Hst].
  destruct (Hst Hs) as [Hdiv|Hs']; [|by cbn in Hs'].
  cbn [shr_record_of_loc shr_m] in Hdiv.
  by replace (Z.max e (fexp prec emax (Zdigits2 m + e)) - e) with (Zpos p) by lia.
Qed.

Lemma round_nearest_even_exact (m : Z) (mrs : shr_record) :
  sticky mrs = false -> round_nearest_even m (loc_of_shr_record mrs) = m.
Proof.
  destruct mrs as [m' r s]. unfold sticky; cbn [shr_r shr_s].
  by intros [-> ->]%orb_false_iff.
Qed.

Lemma scaled_lt_pow2 (W prec k : Z) :
  0 <= prec -> 0 <= k -> W < 2 ^ prec -> W * 2 ^ k < 2 ^ (prec + k).
Proof.
  intros Hp Hk HW. rewrite Z.pow_add_r by lia.
  apply Z.mul_lt_mono_pos_r; [by apply Z.pow_pos_nonneg | done].
Qed.

(** A mantissa at most [T * 2 ^ n] shifts down to at most [T], and to
    less than [T] when the shift loses a bit. *)
Lemma div_pow2_le_scaled (m T n : Z) :
  0 <= n -> m <= T * 2 ^ n ->
  m / 2 ^ n <= T /\ (~ (2 ^ n | m) -> m / 2 ^ n + 1 <= T).
Proof.
  intros Hn Hm. assert (0 < 2 ^ n) by (by apply Z.pow_pos_nonneg).
  split.
  - apply Z.div_le_upper_bound; lia.
  - intros Hdiv. assert (m <> T * 2 ^ n) by (intros ->; apply Hdiv; by exists T).
    assert (m / 2 ^ n < T); [|lia]. apply Z.div_lt_upper_bound; lia.
Qed.

Section Bounds.
Variables prec emax : Z.
Hypothesis Hprec : 0 < prec.
Hypothesis Hemax : prec < emax.

(** Rounding a positive mantissa of value at most [W] gives a float of
    value at most [W], for an integer [W] that the format holds. *)
Lemma binary_round_aux_below (m : positive) (e W : Z) :
  0 <= W < 2 ^ prec -> e <= 0 -> Zpos m <= W * 2 ^ (- e) ->
  below W (binary_round_aux prec emax false (Zpos m) e loc_Exact).
Proof.
  intros [HW0 HW] He Hm. unfold binary_round_aux.
  set (D := Zpos (digits2_pos m)) in *. set (d := D + e) in *.
  assert (Hpow : forall k, 0 <= k -> 0 < 2 ^ k) by (intros; by apply Z.pow_pos_nonneg).
  (* the value is below [2 ^ prec], so the canonical exponent is not positive *)
  assert (Hd : d <= prec).
  { assert (D <= prec + - e); [|lia].
    change D with (Zdigits2 (Zpos m)). apply Zdigits2_le; [lia|]. split; [lia|].
    eapply Z.le_lt_trans; [exact Hm|]. apply scaled_lt_pow2; lia. }
  destruct (shr_fexp_spec prec emax (Zpos m) e loc_Exact) as [He1 Hm1]; [lia|].
  pose proof (shr_fexp_sticky prec emax (Zpos m) e) as Hst1.
  destruct (shr_fexp prec emax (Zpos m) e loc_Exact) as [mrs1 e1].
  cbn [fst snd Zdigits2] in He1, Hm1, Hst1. fold D d in He1, Hm1, Hst1.
  rewrite <- He1 in Hm1, Hst1.
  assert (He1' : e <= e1 <= 0).
  { unfold SpecFloat.fexp, SpecFloat.emin in He1. lia. }
  (* the rounded mantissa stays within the bound at the new exponent *)
  assert (Hscale : W * 2 ^ (- e) = W * 2 ^ (- e1) * 2 ^ (e1 - e)).
  { rewrite <- Z.mul_assoc, <- Z.pow_add_r by lia. do 2 f_equal. lia. }
  rewrite Hscale in Hm.
  destruct (div_pow2_le_scaled (Zpos m) (W * 2 ^ (- e1)) (e1 - e)) as [Hfloor Hbump];
    [lia | done |]. rewrite <- Hm1 in Hfloor, Hbump.
  set (m1 := shr_m mrs1) in *.
  assert (Hm1pos : 0 <= m1).
  { rewrite Hm1. apply Z.div_pos; [lia|]. apply Hpow. lia. }
  pose proof (round_nearest_even_bounds m1 (loc_of_shr_record mrs1)) as Hr.
  assert (Hmr : round_nearest_even m1 (loc_of_shr_record mrs1) <= W * 2 ^ (- e1)).
  { destruct (sticky mrs1) eqn:Hs.
    - specialize (Hbump (Hst1 ltac:(lia) eq_refl)). lia.
    - by rewrite round_nearest_even_exact. }
  set (mr := round_nearest_even m1 (loc_of_shr_record mrs1)) in *.
  destruct (shr_fexp_spec prec emax mr e1 loc_Exact) as [He2 Hm2]; [lia|].
  destruct (shr_fexp prec emax mr e1 loc_Exact) as [mrs2 e2].
  cbn [fst snd] in He2, Hm2. rewrite <- He2 in Hm2.
  assert (Hdr : Zdigits2 mr + e1 <= prec).
  { assert (Zdigits2 mr <= prec + - e1); [|lia].
    apply Zdigits2_le; [lia|]. split; [lia|].
    eapply Z.le_lt_trans; [exact Hmr|]. apply scaled_lt_pow2; lia. }
  assert (He2' : e1 <= e2 <= 0).
  { unfold SpecFloat.fexp, SpecFloat.emin in He2. lia. }
  assert (Hscale2 : W * 2 ^ (- e1) = W * 2 ^ (- e2) * 2 ^ (e2 - e1)).
  { rewrite <- Z.mul_assoc, <- Z.pow_add_r by lia. do 2 f_equal. lia. }
  rewrite Hscale2 in Hmr.
  destruct (div_pow2_le_scaled mr (W * 2 ^ (- e2)) (e2 - e1)) as [Hfloor2 _];
    [lia | done |]. rewrite <- Hm2 in Hfloor2.
  assert (Hm2pos : 0 <= shr_m mrs2).
  { rewrite Hm2. apply Z.div_pos; [lia|]. apply Hpow. lia. }
  destruct (shr_m mrs2) as [|q|q]; [done| |lia].
  replace (e2 <=? emax - prec) with true by (symmetry; apply Z.leb_le; lia).
  cbn [below]. lia.
Qed.

Lemma binary_round_below (m : positive) (e W : Z) :
  0 <= W < 2 ^ prec -> e <= 0 -> Zpos m <= W * 2 ^ (- e) ->
  below W (binary_round prec emax false m e).
Proof.
  intros HW He Hm. unfold binary_round.
  destruct (shl_align_spec m e (fexp prec emax (Zpos (digits2_pos m) + e)))
    as (He' & Hv & _).
  destruct (shl_align m e (fexp prec emax (Zpos (digits2_pos m) + e))) as [mz ez].
  cbn [fst snd] in He', Hv.
  apply binary_round_aux_below; [done | lia |].
  rewrite Hv, He'.
  set (ez' := Z.min e (fexp prec emax (Zpos (digits2_pos m) + e))).
  assert (Hez : ez' <= e) by (subst ez'; lia).
  replace (W * 2 ^ (- ez')) with (W * 2 ^ (- e) * 2 ^ (e - ez')).
  - apply Z.mul_le_mono_nonneg_r; [apply Z.pow_nonneg; lia | done].
  - rewrite <- Z.mul_assoc, <- Z.pow_add_r by lia. do 2 f_equal. lia.
Qed.

Lemma binary_normalize_below (M e W : Z) :
  0 <= W < 2 ^ prec -> e <= 0 -> 0 <= M <= W * 2 ^ (- e) ->
  below W (binary_normalize prec emax M e false).
Proof.
  intros HW He [HM0 HM]. destruct M as [|q|q]; cbn [binary_normalize]; [done| |lia].
  by apply binary_round_below.
Qed.

(** [1 - x] for [0 <= x <= 1], with [one] the float 1, lies in [0, 1]. *)
Lemma SFsub_one_below (one x : spec_float) :
  0 < 2 ^ prec - 1 ->
  (exists m1 e1, one = S754_finite false m1 e1 /\ e1 <= 0 /\ Zpos m1 = 2 ^ (- e1)) ->
  in_unit x = true ->
  below 1 (SFsub prec emax one x).
Proof.
  intros Hone (m1 & e1 & -> & He1 & Hm1) Hx.
  assert (HW : 0 <= 1 < 2 ^ prec) by lia.
  destruct x as [sx| | |sx mx ex]; try done.
  - cbn [SFsub below]. repeat split; lia.
  - cbn [in_unit] in Hx.
    apply andb_true_iff in Hx as [[Hs Hex]%andb_true_iff Hmx].
    apply negb_true_iff in Hs as ->. apply Z.leb_le in Hex, Hmx.
    cbn [SFsub cond_Zopp].
    set (ez := Z.min e1 ex).
    destruct (shl_align_spec m1 e1 ez) as (_ & Hv1 & _).
    destruct (shl_align_spec mx ex ez) as (_ & Hvx & _).
    replace (Z.min e1 ez) with ez in Hv1 by lia.
    replace (Z.min ex ez) with ez in Hvx by lia.
    assert (Hez : ez <= 0) by lia.
    assert (H1 : Zpos (shl_align m1 e1 ez).1 = 2 ^ (- ez)).
    { rewrite Hv1, Hm1, <- Z.pow_add_r by lia. f_equal. lia. }
    assert (Hx' : Zpos (shl_align mx ex ez).1 <= 2 ^ (- ez)).
    { rewrite Hvx. replace (2 ^ (- ez)) with (2 ^ (- ex) * 2 ^ (ex - ez))
        by (rewrite <- Z.pow_add_r by lia; f_equal; lia).
      apply Z.mul_le_mono_nonneg_r; [apply Z.pow_nonneg; lia | done]. }
    apply binary_normalize_below; [done | done | lia].
Qed.

(** The product of a float in [0, W] and a float in [0, 1] lies in [0, W]. *)
Lemma SFmul_below (x y : spec_float) (W : Z) :
  0 <= W < 2 ^ prec -> below W x -> below 1 y ->
  below W (SFmul prec emax x y).
Proof.
  intros HW Hx Hy.
  destruct x as [sx| | |sx mx ex], y as [sy| | |sy my ey]; try done.
  destruct Hx as (-> & Hex & Hmx), Hy as (-> & Hey & Hmy).
  cbn [SFmul xorb]. apply binary_round_aux_below; [done | lia |].
  rewrite Pos2Z.inj_mul.
  replace (- (ex + ey)) with (- ex + - ey) by lia. rewrite Z.pow_add_r by lia.
  assert (0 <= 2 ^ (- ex)) by (apply Z.pow_nonneg; lia).
  assert (0 <= 2 ^ (- ey)) by (apply Z.pow_nonneg; lia).
  nia.
Qed.
End Bounds.

(** *** From the landmark to the circle *)

Lemma float_of_int_below (n : Z) :
  0 <= n < 2 ^ 53 -> exists w, float_of_int n = inr w /\ below n w.
Proof.
  intros Hn. unfold float_of_int.
  assert (Hb : below n (binary_normalize 53 1024 n 0 false)).
  { apply binary_normalize_below; try done. cbn. lia. }
  destruct (binary_normalize 53 1024 n 0 false) as [s| | |s m e]; try done; eauto.
Qed.

Lemma mirror_below (v : float) :
  in_unit v = true -> below 1 (float_sub float_one v).
Proof.
  intros Hv. unfold float_sub. apply SFsub_one_below; try done.
  exists 4503599627370496%positive, (-52). done.
Qed.

Lemma f32_of_float_below (W : Z) (x : float) :
  0 <= W < 2 ^ 24 -> below W x -> below W (f32_of_float x).
Proof.
  intros HW Hx. destruct x as [s| | |s m e]; try done.
  destruct Hx as (-> & He & Hm). cbn [f32_of_float]. by apply binary_round_below.
Qed.

Lemma i32_of_f32_below (W : Z) (x : f32) :
  0 <= W <= i32_max -> below W x -> 0 <= i32_of_f32 x <= W.
Proof.
  intros HW Hx. destruct x as [s| | |s m e]; try done; [cbn; lia|].
  destruct Hx as (-> & He & Hm). cbn [i32_of_f32].
  assert (Ht : 0 <= (if 0 <=? e then Z.shiftl (Zpos m) e else Z.shiftr (Zpos m) (- e)) <= W).
  { destruct (0 <=? e) eqn:He0.
    - apply Z.leb_le in He0. assert (e = 0) as -> by lia.
      rewrite Z.shiftl_0_r. cbn in Hm. lia.
    - apply Z.leb_gt in He0. rewrite Z.shiftr_div_pow2 by lia.
      assert (0 < 2 ^ (- e)) by (apply Z.pow_pos_nonneg; lia).
      split; [apply Z.div_pos; lia | apply Z.div_le_upper_bound; lia]. }
  set (t := if 0 <=? e then _ else _) in *.
  replace (i32_min <=? t) with true by (symmetry; apply Z.leb_le; unfold i32_min; lia).
  replace (t <=? i32_max) with true by (symmetry; apply Z.leb_le; lia).
  cbn [andb]. lia.
Qed.

(** The circle of a landmark inside the image lies inside the frame. *)
Lemma px_of_inside_frame (X Y : Z) (w h : float) (lm : Landmark) :
  0 <= X < 2 ^ 24 -> 0 <= Y < 2 ^ 24 ->
  float_of_int X = inr w -> float_of_int Y = inr h ->
  in_unit (lm_x lm) = true -> in_unit (lm_y lm) = true ->
  0 <= i32_of_f32 (v2_x (px_of w h lm)) <= X /\
  0 <= i32_of_f32 (v2_y (px_of w h lm)) <= Y.
Proof.
  intros HX HY Hw Hh Hx Hy.
  assert (Hdim : forall n a v, 0 <= n < 2 ^ 24 -> float_of_int n = inr a ->
            in_unit v = true ->
            0 <= i32_of_f32 (f32_of_float (float_mul a (float_sub float_one v))) <= n).
  { intros n a v Hn Ha Hv.
    destruct (float_of_int_below n) as (a' & Ha' & Hbelow); [lia|].
    assert (a' = a) as -> by congruence.
    apply i32_of_f32_below; [unfold i32_max; lia|].
    apply f32_of_float_below; [done|]. unfold float_mul.
    apply SFmul_below; try done; try lia; by apply mirror_below. }
  unfold px_of; cbn [v2_x v2_y]. split; by apply Hdim.
Qed.

(** X13. A landmark inside the image is drawn inside the frame.  When a
    detection returns and the surface is bound, for frame dimensions
    from 0 to below [2 ^ 24] and a landmark [j < 478] of a reported face
    [i] whose normalized x and y lie between 0 and 1, the call number
    [i * 478 + j] of the following [draw] is a circle of radius 5 whose
    centre lies between 0 and the context's x dimension horizontally and
    between 0 and its y dimension vertically. *)
Theorem drawn_landmark_inside_frame (rt : Runtime) (s : MPFaceMesh) (p : Pixels)
  (frame : Frame) (faces : list Face) (face : Face) (lm : Landmark) (i j : nat) :
  self_px s = Some p ->
  face_mesh s frame = Some faces ->
  r_out (detect (Some frame) s) = Returned tt ->
  Z.of_nat (length faces) <= i32_max ->
  faces !! i = Some face -> face !! j = Some lm -> (j < 478)%nat ->
  0 <= ctx_x s < 2 ^ 24 -> 0 <= ctx_y s < 2 ^ 24 ->
  in_unit (lm_x lm) = true -> in_unit (lm_y lm) = true ->
  exists cx cy,
    r_calls (draw rt (r_self (detect (Some frame) s))) !! (i * 478 + j)%nat
      = Some (Circle cx cy 5 [1; 1; 1; 1]) /\
    0 <= cx <= ctx_x s /\ 0 <= cy <= ctx_y s.
Proof.
  intros Hpx Hres Hout HK Hface Hlm Hj HX HY Hx Hy.
  assert (Hne : faces <> []) by (intros ->; done).
  destruct (detect_Returned s frame faces Hres Hne Hout) as (np' & Hall & Hself).
  destruct (write_all_written _ _ _ _ _ i j lm (NoDup_face_cmds faces 0) Hall)
    as (w & h & Hw & Hh & _ & Hcell).
  { apply elem_of_face_cmds. split; [lia|]. exists face. by rewrite Nat.sub_0_r. }
  exists (i32_of_f32 (v2_x (px_of w h lm))), (i32_of_f32 (v2_y (px_of w h lm))).
  split; [|by apply px_of_inside_frame].
  apply (draw_bound_circle rt _ p); try done.
  - rewrite Hself. by cbn.
  - rewrite Hself. cbn [with_detected detected]. rewrite i32_id.
    + apply lookup_lt_Some in Hface. lia.
    + unfold in_i32, i32_min, i32_max in *. lia.
  - rewrite Hself. by cbn.
Qed.

Lemma drawn_landmark_inside_frame_witness :
  exists cx cy,
    r_calls (draw ex_rt (r_self (detect (Some frame2) (with_px ctx_px ex_self))))
      !! (1 * 478 + 477)%nat = Some (Circle cx cy 5 [1; 1; 1; 1]) /\
    0 <= cx <= 1920 /\ 0 <= cy <= 1080.
Proof.
  assert (Hres : face_mesh (with_px ctx_px ex_self) frame2
                 = Some [replicate 478 (ex_lm 0); replicate 478 (ex_lm 1)])
    by (vm_compute; reflexivity).
  assert (Hout : r_out (detect (Some frame2) (with_px ctx_px ex_self)) = Returned tt)
    by (vm_compute; reflexivity).
  apply (drawn_landmark_inside_frame ex_rt (with_px ctx_px ex_self) ctx_px frame2
           _ (replicate 478 (ex_lm 1)) (ex_lm 1) 1 477 eq_refl Hres Hout);
    try reflexivity; try (vm_compute; split; [discriminate | reflexivity]).
  - vm_compute. discriminate.
  - lia.
Defined.

(** X14. After a detection that returned, the normalized cell of a
    reported landmark whose x and y lie between 0 and 1 holds an x and a
    y between 0 and 1 again: mirroring keeps a point inside the image. *)
Theorem detect_pxnorm_in_unit (s : MPFaceMesh) (frame : Frame) (faces : list Face)
  (face : Face) (lm : Landmark) (i j : nat) :
  face_mesh s frame = Some faces ->
  r_out (detect (Some frame) s) = Returned tt ->
  faces !! i = Some face -> face !! j = Some lm ->
  in_unit (lm_x lm) = true -> in_unit (lm_y lm) = true ->
  exists v,
    cell (pxnorm (ctx_s_face_mesh (r_self (detect (Some frame) s)))) i j = Some v /\
    below 1 (v3_x v) /\ below 1 (v3_y v).
Proof.
  intros Hres Hout Hface Hlm Hx Hy.
  assert (Hne : faces <> []) by (intros ->; done).
  destruct (detect_Returned s frame faces Hres Hne Hout) as (np' & Hall & Hself).
  destruct (write_all_written _ _ _ _ _ i j lm (NoDup_face_cmds faces 0) Hall)
    as (w & h & _ & _ & Hcell & _).
  { apply elem_of_face_cmds. split; [lia|]. exists face. by rewrite Nat.sub_0_r. }
  exists (pxnorm_of lm). rewrite Hself. split; [by cbn|].
  unfold pxnorm_of; cbn [v3_x v3_y].
  split; apply f32_of_float_below; try done; by apply mirror_below.
Qed.

Lemma detect_pxnorm_in_unit_witness :
  exists v,
    cell (pxnorm (ctx_s_face_mesh (r_self (detect (Some frame2) ex_self)))) 1 477 = Some v /\
    below 1 (v3_x v) /\ below 1 (v3_y v).
Proof.
  assert (Hres : face_mesh ex_self frame2
                 = Some [replicate 478 (ex_lm 0); replicate 478 (ex_lm 1)])
    by (vm_compute; reflexivity).
  assert (Hout : r_out (detect (Some frame2) ex_self) = Returned tt)
    by (vm_compute; reflexivity).
  apply (detect_pxnorm_in_unit ex_self frame2 _ (replicate 478 (ex_lm 1)) (ex_lm 1) 1 477
           Hres Hout eq_refl eq_refl); reflexivity.
Defined.
